(** * Main Character Meter: the metrics generator and its two call sites

    A shallow embedding of the TypeScript sources

    - the interactive page ([hashHandle], [generateMetrics], [captions]),
    - the frame responder  (supabase/functions/frame-main-character/index.ts),
    - the profile lookup proxy (get-farcaster-profile),

    followed by the properties of the specification's section 8.

    JavaScript numbers are IEEE doubles.  Every intermediate value of the two
    hash loops is an integer of magnitude below 2^38, far inside the range in
    which doubles are exact, so numbers are modelled by [Z] and the 32-bit
    conversions are written out. *)

From Stdlib Require Import String Ascii.
From Stdlib Require Import ZArith List Lia Bool.
From Stdlib Require Import DecimalString.
Import ListNotations.
Local Open Scope Z_scope.
#[local] Set Warnings "-register-all".

(** ** JavaScript primitives used by the sources *)

Module JS.

(** A string is its sequence of UTF-16 code units, as [charCodeAt] sees it. *)
Definition jsstring := list Z.

Definition lit (s : String.string) : jsstring :=
  map (fun a => Z.of_N (Ascii.N_of_ascii a)) (String.list_ascii_of_string s).
Arguments lit s%_string.

Definition str_eqb (a b : jsstring) : bool :=
  if list_eq_dec Z.eq_dec a b then true else false.

(** ToUint32 and ToInt32 on integers. *)
Definition toUint32 (x : Z) : Z := x mod 4294967296.

Definition toInt32 (x : Z) : Z :=
  let u := x mod 4294967296 in
  if u <? 2147483648 then u else u - 4294967296.

(** [a << n], [a >> n], [a >>> n], [a | b] and [a % b]. *)
Definition shl (a n : Z) : Z :=
  toInt32 (Z.shiftl (toInt32 a) (toUint32 n mod 32)).

Definition sar (a n : Z) : Z :=
  Z.shiftr (toInt32 a) (toUint32 n mod 32).

Definition ushr (a n : Z) : Z :=
  Z.shiftr (toUint32 a) (toUint32 n mod 32).

Definition bor (a b : Z) : Z :=
  toInt32 (Z.lor (toInt32 a) (toInt32 b)).

(** The remainder takes the sign of the dividend.  (JavaScript distinguishes
    -0 from 0; no operation of the sources observes the difference.) *)
Definition rem (a b : Z) : Z := Z.rem a b.

(** [l[i]]: [undefined] outside of the array. *)
Definition index {A} (l : list A) (i : Z) : option A :=
  if i <? 0 then None else nth_error l (Z.to_nat i).

(** [s || d] on strings: the empty string is the only falsy one. *)
Definition or_else (s d : jsstring) : jsstring :=
  match s with
  | [] => d
  | _ :: _ => s
  end.

(** White space and line terminators, the code units [trim] removes. *)
Definition is_ws (c : Z) : bool :=
  ((9 <=? c) && (c <=? 13)) || (c =? 32) || (c =? 160) || (c =? 5760)
  || ((8192 <=? c) && (c <=? 8202)) || (c =? 8232) || (c =? 8233)
  || (c =? 8239) || (c =? 8287) || (c =? 12288) || (c =? 65279).

Fixpoint trimStart (s : jsstring) : jsstring :=
  match s with
  | [] => []
  | c :: r => if is_ws c then trimStart r else s
  end.

Definition trimEnd (s : jsstring) : jsstring := rev (trimStart (rev s)).

Definition trim (s : jsstring) : jsstring := trimEnd (trimStart s).

(** [s.replace(/^@/, '')]: one commercial at, at the very start only. *)
Definition at_sign : Z := 64.

Definition replace_leading_at (s : jsstring) : jsstring :=
  match s with
  | [] => []
  | c :: r => if c =? at_sign then r else s
  end.

(** [toLowerCase], on the Basic Latin and Latin-1 Supplement blocks, where it
    maps code unit to code unit.  The definition is exact on the strings whose
    code units are all below 256 ([latin1], further down); it keeps the code
    units of the other blocks as they are, which the real function does not
    (it lower-cases every cased letter, and may change the length).  Every
    statement below that needs a property of lower-casing is therefore made
    for [latin1] strings only. *)
Definition lower_unit (c : Z) : Z :=
  if (65 <=? c) && (c <=? 90) then c + 32
  else if (192 <=? c) && (c <=? 222) && negb (c =? 215) then c + 32
  else c.

Definition toLowerCase (s : jsstring) : jsstring := map lower_unit s.

(** Number to string, for integers: the decimal digits, with a minus sign.
    This is what JavaScript writes for the integers of magnitude below 10^21,
    which cover every number that the sources compute. *)
Definition num_to_string (n : Z) : jsstring :=
  lit (NilZero.string_of_int (Z.to_int n)).

(** Upper-case hexadecimal digit and [%XX] escape of a byte. *)
Definition hex_digit (d : Z) : Z := if d <? 10 then 48 + d else 55 + d.

Definition pct (b : Z) : jsstring := [37; hex_digit (b / 16); hex_digit (b mod 16)].

(** UTF-8 encoding of a code point. *)
Definition utf8 (cp : Z) : list Z :=
  if cp <? 128 then [cp]
  else if cp <? 2048 then [192 + cp / 64; 128 + cp mod 64]
  else if cp <? 65536 then
    [224 + cp / 4096; 128 + (cp / 64) mod 64; 128 + cp mod 64]
  else
    [240 + cp / 262144; 128 + (cp / 4096) mod 64;
     128 + (cp / 64) mod 64; 128 + cp mod 64].

Definition is_high_surrogate (c : Z) : bool := (55296 <=? c) && (c <=? 56319).
Definition is_low_surrogate (c : Z) : bool := (56320 <=? c) && (c <=? 57343).

(** The characters [encodeURIComponent] leaves alone:
    letters, digits and [- _ . ! ~ * ' ( )]. *)
Definition uri_unreserved (c : Z) : bool :=
  ((65 <=? c) && (c <=? 90)) || ((97 <=? c) && (c <=? 122))
  || ((48 <=? c) && (c <=? 57))
  || (c =? 45) || (c =? 95) || (c =? 46) || (c =? 33) || (c =? 126)
  || (c =? 42) || (c =? 39) || (c =? 40) || (c =? 41).

(** Thrown values: an [Error] with its message. *)
Inductive result (A : Type) : Type :=
| Ok (a : A)
| Throw (message : jsstring).
Arguments Ok {A} a.
Arguments Throw {A} message.

Definition bind {A B} (r : result A) (k : A -> result B) : result B :=
  match r with
  | Ok a => k a
  | Throw m => Throw m
  end.

Definition uri_malformed : jsstring := lit "URI malformed".

(** [encodeURIComponent]: a lone surrogate throws a URIError. *)
Fixpoint encodeURIComponent (s : jsstring) : result jsstring :=
  match s with
  | [] => Ok []
  | c :: r =>
    if uri_unreserved c then
      bind (encodeURIComponent r) (fun e => Ok (c :: e))
    else if is_low_surrogate c then Throw uri_malformed
    else if is_high_surrogate c then
      match r with
      | d :: r' =>
        if is_low_surrogate d then
          let cp := (c - 55296) * 1024 + (d - 56320) + 65536 in
          bind (encodeURIComponent r')
               (fun e => Ok (flat_map pct (utf8 cp) ++ e))
        else Throw uri_malformed
      | [] => Throw uri_malformed
      end
    else
      bind (encodeURIComponent r) (fun e => Ok (flat_map pct (utf8 c) ++ e))
  end.

End JS.

Import JS.

(** ** The interactive page *)

Module App.

Inductive PlotArmor : Type := Low | Medium | High.

Record EnergyResult : Type := {
  mainCharacter : Z;
  npcEnergy : Z;
  plotArmor : PlotArmor;
  caption : option jsstring;
  fid : Z;
  avatarUrl : jsstring
}.

Definition captions : list jsstring :=
  [ lit "Plot twist: you were the main character the whole time.";
    lit "Side quests completed. Main quest energy unlocked.";
    lit "You give " ++ [34] ++ lit "I know the author" ++ [34] ++ lit " energy.";
    lit "NPCs are just background characters in your highlight reel.";
    lit "Somewhere, a writer is adding you to season two." ].

(** One turn of the loop: [hash = (hash * 31 + handle.charCodeAt(i)) >>> 0]. *)
Definition hash_step (hash c : Z) : Z := ushr (hash * 31 + c) 0.

Definition hashHandle (handle : jsstring) : Z := fold_left hash_step handle 0.

Definition fallback : jsstring := lit "maincharacter".

(** [handle.trim()], then the replacement of a leading commercial at. *)
Definition normalize (handle : jsstring) : jsstring :=
  replace_leading_at (trim handle).

Definition generateMetrics (handle : jsstring) : result EnergyResult :=
  let trimmed := normalize handle in
  let base := or_else trimmed fallback in
  let hash := hashHandle (or_else base fallback) in
  let mainCharacter := rem hash 51 + 50 in
  let npcEnergyRaw := 100 - mainCharacter + rem (sar hash 3) 11 - 5 in
  let npcEnergy := Z.max 0 (Z.min 100 npcEnergyRaw) in
  let armorSeed := rem (sar hash 7) 100 in
  let plotArmor :=
    if armorSeed >? 70 then High else if armorSeed >? 40 then Medium else Low in
  let caption := index captions (rem hash (Z.of_nat (length captions))) in
  let fid := rem hash 900000 + 10000 in
  bind (encodeURIComponent (toLowerCase base)) (fun seed =>
  let avatarUrl := lit "https://api.dicebear.com/9.x/thumbs/svg?seed=" ++ seed in
  Ok {| mainCharacter := mainCharacter;
        npcEnergy := npcEnergy;
        plotArmor := plotArmor;
        caption := caption;
        fid := fid;
        avatarUrl := avatarUrl |}).

End App.

(** ** The frame responder *)

Module Frame.

Inductive PlotArmor : Type := Low | Medium | High.

Record Metrics : Type := {
  mainCharacter : Z;
  npcEnergy : Z;
  plotArmor : option PlotArmor
}.

(** One turn of the loop:
    [hash = (hash << 5) - hash + handle.charCodeAt(i); hash |= 0]. *)
Definition hash_step (hash c : Z) : Z :=
  let hash := shl hash 5 - hash + c in
  bor hash 0.

Definition hash_loop (handle : jsstring) : Z := fold_left hash_step handle 0.

Definition hashHandle (handle : jsstring) : Z := Z.abs (hash_loop handle).

Definition fallback : jsstring := lit "anon".

(** [handle.toLowerCase()], then the replacement of a leading commercial at,
    then [trim()]. *)
Definition normalize (handle : jsstring) : jsstring :=
  trim (replace_leading_at (toLowerCase handle)).

Definition plotArmorLevels : list PlotArmor := [Low; Medium; High].

Definition generateMetrics (handle : jsstring) : Metrics :=
  let normalized := normalize handle in
  let hash := hashHandle (or_else normalized fallback) in
  let mainCharacter := rem hash 51 + 50 in
  let npcEnergy := 100 - rem hash 41 in
  let plotArmor :=
    index plotArmorLevels (rem hash (Z.of_nat (length plotArmorLevels))) in
  {| mainCharacter := mainCharacter;
     npcEnergy := npcEnergy;
     plotArmor := plotArmor |}.

End Frame.

(** ** JSON values, as [req.json()] produces them *)

Module Json.

(** Numbers are modelled on the integers. *)
Inductive json : Type :=
| JNull
| JBool (b : bool)
| JNum (n : Z)
| JStr (s : jsstring)
| JArr (items : list json)
| JObj (fields : list (jsstring * json)).

Definition truthy (v : json) : bool :=
  match v with
  | JNull => false
  | JBool b => b
  | JNum n => negb (n =? 0)
  | JStr s => match s with [] => false | _ :: _ => true end
  | JArr _ => true
  | JObj _ => true
  end.

(** An own property of a parsed object; of two equal keys the later wins. *)
Fixpoint lookup (fields : list (jsstring * json)) (k : jsstring) : option json :=
  match fields with
  | [] => None
  | (k', v) :: r =>
    match lookup r k with
    | Some w => Some w
    | None => if str_eqb k' k then Some v else None
    end
  end.

Definition cannot_read (k : jsstring) : jsstring :=
  lit "Cannot read properties of null (reading '" ++ k ++ lit "')".

(** [v.k] for a key [k] that no prototype defines: [None] is [undefined]. *)
Definition get (v : json) (k : jsstring) : result (option json) :=
  match v with
  | JNull => Throw (cannot_read k)
  | JObj fields => Ok (lookup fields k)
  | _ => Ok None
  end.

(** [x || d] *)
Definition or_default (x : option json) (d : json) : json :=
  match x with
  | Some v => if truthy v then v else d
  | None => d
  end.

Definition cannot_convert : jsstring :=
  lit "Cannot convert object to primitive value".

(** Conversion to a string.  A parsed object converts through
    [Object.prototype.toString], unless it has a [toString] entry of its own,
    which is no function. *)
Fixpoint toString (v : json) : result jsstring :=
  match v with
  | JNull => Ok (lit "null")
  | JBool b => Ok (if b then lit "true" else lit "false")
  | JNum n => Ok (num_to_string n)
  | JStr s => Ok s
  | JArr items =>
    (fix join (l : list json) : result jsstring :=
       match l with
       | [] => Ok []
       | x :: r =>
         bind (match x with JNull => Ok [] | _ => toString x end) (fun sx =>
         match r with
         | [] => Ok sx
         | _ :: _ => bind (join r) (fun sr => Ok (sx ++ [44] ++ sr))
         end)
       end) items
  | JObj fields =>
    match lookup fields (lit "toString") with
    | Some _ => Throw cannot_convert
    | None => Ok (lit "[object Object]")
    end
  end.

(** Lower-case hexadecimal digit and the [\uXXXX] escape. *)
Definition hex_lower (d : Z) : Z := if d <? 10 then 48 + d else 87 + d.

Definition unicode_escape (c : Z) : jsstring :=
  [92; 117; hex_lower (c / 4096); hex_lower ((c / 256) mod 16);
   hex_lower ((c / 16) mod 16); hex_lower (c mod 16)].

(** The characters of a string as [JSON.stringify] writes them between the
    quotes. *)
Fixpoint quote_chars (s : jsstring) : jsstring :=
  match s with
  | [] => []
  | c :: r =>
    if c =? 8 then [92; 98] ++ quote_chars r
    else if c =? 9 then [92; 116] ++ quote_chars r
    else if c =? 10 then [92; 110] ++ quote_chars r
    else if c =? 12 then [92; 102] ++ quote_chars r
    else if c =? 13 then [92; 114] ++ quote_chars r
    else if c =? 34 then [92; 34] ++ quote_chars r
    else if c =? 92 then [92; 92] ++ quote_chars r
    else if c <? 32 then unicode_escape c ++ quote_chars r
    else if is_low_surrogate c then unicode_escape c ++ quote_chars r
    else if is_high_surrogate c then
      match r with
      | d :: r' =>
        if is_low_surrogate d then c :: d :: quote_chars r'
        else unicode_escape c ++ quote_chars r
      | [] => unicode_escape c
      end
    else c :: quote_chars r
  end.

Definition quote (s : jsstring) : jsstring := [34] ++ quote_chars s ++ [34].

End Json.

Import Json.

(** ** HTTP requests and responses *)

Module Http.

(** [payload] is the outcome of [req.json()]. *)
Record Request : Type := {
  method : jsstring;
  payload : result json
}.

Record Response : Type := {
  status : Z;
  headers : list (jsstring * jsstring);
  body : option jsstring
}.

Definition corsHeaders : list (jsstring * jsstring) :=
  [ (lit "Access-Control-Allow-Origin", lit "*");
    (lit "Access-Control-Allow-Headers",
     lit "authorization, x-client-info, apikey, content-type") ].

End Http.

Import Http.

(** ** The frame responder: markup and request handler *)

Module FrameServer.

Import Frame.

Definition armor_text (a : option PlotArmor) : jsstring :=
  match a with
  | Some Low => lit "Low"
  | Some Medium => lit "Medium"
  | Some High => lit "High"
  | None => lit "undefined"
  end.

Definition default_subtitle : jsstring :=
  lit "Drop your handle to scan your Main Character Energy".

(** The middle dot of the subtitle, U+00B7, between two spaces. *)
Definition dot : jsstring := [32; 183; 32].

Definition subtitle_of (normalized : jsstring) (m : Metrics) : jsstring :=
  lit "@" ++ normalized ++ lit ": MC " ++ num_to_string (mainCharacter m)
  ++ dot ++ lit "NPC " ++ num_to_string (npcEnergy m)
  ++ dot ++ lit "Armor " ++ armor_text (plotArmor m).

Definition nl : jsstring := [10].

(** One [meta] line of the head, with its property and content. *)
Definition meta (property content : jsstring) : jsstring :=
  lit "    <meta property=" ++ [34] ++ property ++ [34]
  ++ lit " content=" ++ [34] ++ content ++ [34] ++ lit " />" ++ nl.

Definition html_of (subtitle state imageUrl appUrl : jsstring) : jsstring :=
  lit "<!doctype html>" ++ nl
  ++ lit "<html>" ++ nl
  ++ lit "  <head>" ++ nl
  ++ meta (lit "og:title") (lit "Main Character Energy")
  ++ meta (lit "og:description") subtitle
  ++ meta (lit "og:image") imageUrl
  ++ nl
  ++ meta (lit "fc:frame") (lit "vNext")
  ++ meta (lit "fc:frame:image") imageUrl
  ++ meta (lit "fc:frame:button:1") (lit "Scan again")
  ++ meta (lit "fc:frame:button:1:action") (lit "post")
  ++ meta (lit "fc:frame:input:text") (lit "Enter your Farcaster handle")
  ++ meta (lit "fc:frame:state") state
  ++ meta (lit "fc:frame:post_url") (appUrl ++ lit "/frame-main-character")
  ++ lit "  </head>" ++ nl
  ++ nl
  ++ lit "  <body></body>" ++ nl
  ++ lit "</html>".

(** [JSON.stringify({ handle: normalized })], every double quote of which
    is then replaced by [&quot;]. *)
Definition state_of (normalized : jsstring) : jsstring :=
  flat_map (fun c => if c =? 34 then lit "&quot;" else [c])
           (lit "{" ++ quote (lit "handle") ++ lit ":" ++ quote normalized
            ++ lit "}").

Definition buildFrameHtml (handle imageUrl appUrl : jsstring) : jsstring :=
  let normalized := normalize handle in
  let m := generateMetrics normalized in
  let subtitle :=
    if (Z.of_nat (length normalized) >? 0) then subtitle_of normalized m
    else default_subtitle in
  let state := state_of normalized in
  html_of subtitle state imageUrl appUrl.

Definition appUrl : jsstring :=
  lit "https://yatrugjplwgsqnehumcu.functions.supabase.co".

Definition imageUrl : jsstring :=
  lit "https://lovable.dev/opengraph-image-p98pqg.png".

Definition html_response (html : jsstring) : Response :=
  {| status := 200;
     headers := corsHeaders
                ++ [(lit "Content-Type", lit "text/html; charset=utf-8")];
     body := Some html |}.

(** The body of the [try] block. *)
Definition respond (req : Request) : result Response :=
  if str_eqb (method req) (lit "GET") then
    Ok (html_response (buildFrameHtml [] imageUrl appUrl))
  else if str_eqb (method req) (lit "POST") then
    let body := match payload req with Ok v => v | Throw _ => JObj [] end in
    bind (get body (lit "untrustedData")) (fun u =>
    let untrustedData := or_default u (JObj []) in
    bind (get untrustedData (lit "inputText")) (fun i =>
    bind (toString (or_default i (JStr []))) (fun inputText =>
    Ok (html_response (buildFrameHtml inputText imageUrl appUrl)))))
  else
    Ok {| status := 405; headers := corsHeaders;
          body := Some (lit "Method not allowed") |}.

Definition serve (req : Request) : Response :=
  if str_eqb (method req) (lit "OPTIONS") then
    {| status := 200; headers := corsHeaders; body := None |}
  else
    match respond req with
    | Ok response => response
    | Throw _ =>
      {| status := 500; headers := corsHeaders;
         body := Some (lit "Internal Server Error") |}
    end.

End FrameServer.

(** ** The profile lookup proxy *)

Module Proxy.

(** A user of the directory service, with the fields the handler reads;
    [bio] is [user.profile?.bio?.text]. *)
Record User : Type := {
  user_fid : Z;
  username : jsstring;
  display_name : jsstring;
  pfp_url : jsstring;
  bio : option jsstring
}.

(** What the call of the directory service comes to: [fetch] rejects, or it
    resolves to a response with a status and, read as JSON, a body that either
    fails to parse or follows the service's schema ([None]: no [result.users]). *)
Inductive Upstream : Type :=
| FetchRejects (message : jsstring)
| Replied (status : Z) (data : result (option (list User))).

Definition cannot_destructure : jsstring :=
  lit "Cannot destructure property 'username' of '(intermediate value)' as it is null.".

Definition json_headers : list (jsstring * jsstring) :=
  corsHeaders ++ [(lit "Content-Type", lit "application/json")].

(** [JSON.stringify({ error: message })] *)
Definition error_body (message : jsstring) : jsstring :=
  lit "{" ++ quote (lit "error") ++ lit ":" ++ quote message ++ lit "}".

Definition error_response (status : Z) (message : jsstring) : Response :=
  {| status := status; headers := json_headers;
     body := Some (error_body message) |}.

Definition profile_body (user : User) : jsstring :=
  lit "{" ++ quote (lit "fid") ++ lit ":" ++ num_to_string (user_fid user)
  ++ lit "," ++ quote (lit "username") ++ lit ":" ++ quote (username user)
  ++ lit "," ++ quote (lit "display_name") ++ lit ":"
  ++ quote (display_name user)
  ++ lit "," ++ quote (lit "pfp_url") ++ lit ":" ++ quote (pfp_url user)
  ++ lit "," ++ quote (lit "bio") ++ lit ":"
  ++ quote (match bio user with Some t => or_else t [] | None => [] end)
  ++ lit "}".

(** [new Response(body, { status })] with a body: the constructor throws a
    RangeError for a status outside 200..599 and a TypeError for a status
    that admits no body (101, 204, 205, 304); the messages are the run-time's.
    [None]: the response is built. *)
Definition null_body_status (status : Z) : bool :=
  (status =? 101) || (status =? 204) || (status =? 205) || (status =? 304).

Definition response_refusal (status : Z) : option jsstring :=
  if null_body_status status then
    Some (lit "Response with null body status cannot have body")
  else if (status <? 200) || (599 <? status) then
    Some (lit "The status provided (" ++ num_to_string status
          ++ lit ") is not equal to 101 and outside the range [200, 599].")
  else None.

(** The truth value of an environment variable: unset and empty are falsy. *)
Definition configured (key : option jsstring) : bool :=
  match key with
  | Some (_ :: _) => true
  | _ => false
  end.

Section Handler.

(** The environment variable NEYNAR_API_KEY and the network, from the
    requested address and the key to the outcome of the call. *)
Variable neynarApiKey : option jsstring.
Variable fetch : jsstring -> jsstring -> Upstream.

(** The body of the [try] block. *)
Definition respond (req : Request) : result Response :=
  bind (payload req) (fun parsed =>
  bind (match parsed with
        | JNull => Throw cannot_destructure
        | _ => get parsed (lit "username")
        end) (fun username =>
  if negb (truthy (or_default username JNull)) then
    Ok (error_response 400 (lit "Username is required"))
  else if negb (configured neynarApiKey) then
    Ok (error_response 500 (lit "API key not configured"))
  else
    bind (toString (or_default username JNull)) (fun name =>
    bind (encodeURIComponent name) (fun q =>
    let url := lit "https://api.neynar.com/v2/farcaster/user/search?q="
               ++ q ++ lit "&limit=1" in
    match fetch url (match neynarApiKey with Some k => k | None => [] end) with
    | FetchRejects message => Throw message
    | Replied status data =>
      if negb ((200 <=? status) && (status <=? 299)) then
        match response_refusal status with
        | Some message => Throw message
        | None =>
          Ok (error_response status
                (lit "Failed to fetch profile from Neynar"))
        end
      else
        bind data (fun users =>
        match users with
        | None | Some [] => Ok (error_response 404 (lit "User not found"))
        | Some (user :: _) =>
          Ok {| status := 200; headers := json_headers;
                body := Some (profile_body user) |}
        end)
    end)))).

Definition serve (req : Request) : Response :=
  if str_eqb (method req) (lit "OPTIONS") then
    {| status := 200; headers := corsHeaders; body := None |}
  else
    match respond req with
    | Ok response => response
    | Throw message => error_response 500 message
    end.

End Handler.

End Proxy.

(** ** The interactive page: its state and event handlers *)

Module Page.

Record Toast : Type := {
  title : jsstring;
  description : jsstring;
  destructive : bool
}.

(** The four pieces of state of the component. *)
Record State : Type := {
  handle : jsstring;
  connected : bool;
  result : option App.EnergyResult;
  isSubmitting : bool
}.

Definition initial : State :=
  {| handle := []; connected := false; result := None; isSubmitting := false |}.

(** What a handler leaves behind: the state, the toasts shown, and the
    message of an error that escapes it. *)
Record Outcome : Type := {
  state : State;
  toasts : list Toast;
  thrown : option jsstring
}.

Definition effectiveHandle (st : State) : jsstring :=
  or_else (trim (handle st)) (if connected st then lit "farcaster" else []).

Definition handle_required : Toast :=
  {| title := lit "Handle required";
     description := lit "Type a Farcaster username or use the connect option.";
     destructive := true |}.

Definition too_long : Toast :=
  {| title := lit "That handle seems too long";
     description := lit "Please use a Farcaster username up to 32 characters.";
     destructive := true |}.

Definition calculated : Toast :=
  {| title := lit "Main Character Energy calculated";
     description := lit "Screenshot this card and post it to your feed.";
     destructive := false |}.

(** [setIsSubmitting(true)] is followed, in the [finally] block, by
    [setIsSubmitting(false)]: the state left behind has the flag down. *)
Definition onSubmit (st : State) : Outcome :=
  let value := trim (effectiveHandle st) in
  match value with
  | [] => {| state := st; toasts := [handle_required]; thrown := None |}
  | _ :: _ =>
    if Z.of_nat (length value) >? 32 then
      {| state := st; toasts := [too_long]; thrown := None |}
    else
      match App.generateMetrics value with
      | Ok metrics =>
        {| state := {| handle := handle st; connected := connected st;
                       result := Some metrics; isSubmitting := false |};
           toasts := [calculated]; thrown := None |}
      | Throw message =>
        {| state := {| handle := handle st; connected := connected st;
                       result := result st; isSubmitting := false |};
           toasts := []; thrown := Some message |}
      end
  end.

Definition mock_connect : Toast :=
  {| title := lit "Mock Farcaster connect enabled";
     description :=
       lit "This demo version simulates a Farcaster connection for now.";
     destructive := false |}.

Definition handleConnectClick (st : State) : Outcome :=
  {| state := {| handle := match handle st with
                           | [] => lit "@farcaster"
                           | _ :: _ => handle st
                           end;
                 connected := true;
                 result := result st;
                 isSubmitting := isSubmitting st |};
     toasts := [mock_connect]; thrown := None |}.

(** The text field: what it shows, and what typing [text] into it stores. *)
Definition inputValue (st : State) : jsstring := replace_leading_at (handle st).

Definition onChange (st : State) (text : jsstring) : State :=
  {| handle := match text with
               | [] => []
               | _ :: _ => lit "@" ++ replace_leading_at text
               end;
     connected := connected st;
     result := result st;
     isSubmitting := isSubmitting st |}.

(** [Array.prototype.join] on strings. *)
Fixpoint join (sep : jsstring) (l : list jsstring) : jsstring :=
  match l with
  | [] => []
  | x :: r =>
    match r with
    | [] => x
    | _ :: _ => x ++ sep ++ join sep r
    end
  end.

Definition armor_text (a : App.PlotArmor) : jsstring :=
  match a with
  | App.Low => lit "Low"
  | App.Medium => lit "Medium"
  | App.High => lit "High"
  end.

Definition startsWith_at (s : jsstring) : bool :=
  match s with
  | [] => false
  | c :: _ => c =? at_sign
  end.

Definition share_username (st : State) : jsstring :=
  if startsWith_at (effectiveHandle st) then effectiveHandle st
  else lit "@" ++ effectiveHandle st.

Definition shareText (st : State) (r : App.EnergyResult) : jsstring :=
  join [10]
    [ lit "Main Character Energy scan for " ++ share_username st;
      lit "Main Character Energy: " ++ num_to_string (App.mainCharacter r)
        ++ lit "%";
      lit "NPC Energy: " ++ num_to_string (App.npcEnergy r) ++ lit "%";
      lit "Plot Armor: " ++ armor_text (App.plotArmor r);
      [];
      lit "Generated on Main Character Energy" ].

Definition nothing_to_share : Toast :=
  {| title := lit "Nothing to share yet";
     description := lit "Generate your Main Character Energy first.";
     destructive := false |}.

Definition copied : Toast :=
  {| title := lit "Copied for Farcaster";
     description := lit "Paste into your next cast and tag your friends.";
     destructive := false |}.

Definition could_not_copy : Toast :=
  {| title := lit "Could not copy";
     description := lit "Select and copy the stats manually instead.";
     destructive := true |}.

(** [handleShare].  The clipboard is absent ([None]) or tells, for a text,
    whether [writeText] resolves; the outcome is the text that reached the
    clipboard, if any, and the toast shown. *)
Definition handleShare (clipboard : option (jsstring -> bool)) (st : State)
  : option jsstring * Toast :=
  match result st, effectiveHandle st with
  | None, _ => (None, nothing_to_share)
  | Some _, [] => (None, nothing_to_share)
  | Some r, _ :: _ =>
    match clipboard with
    | Some writeText =>
      if writeText (shareText st r) then (Some (shareText st r), copied)
      else (None, could_not_copy)
    | None => (None, could_not_copy)
    end
  end.

End Page.

(** ** The page with the profile lookup *)

Module LookupPage.

Import Page.

(** The body of the function's answer, an object of any shape: the fields
    the page reads, each present or not. *)
Record Data : Type := {
  error : option jsstring;
  data_fid : option Z;
  data_username : option jsstring;
  data_display_name : option jsstring;
  data_pfp_url : option jsstring
}.

(** [supabase.functions.invoke]: it rejects, or resolves to a pair of an
    error (set or not) and the data (null or not). *)
Inductive Invoked : Type :=
| Rejects
| Resolves (failed : bool) (data : option Data).

(** The stored result: the metrics, with the profile's fields over them. *)
Record Scan : Type := {
  mainCharacter : Z;
  npcEnergy : Z;
  plotArmor : App.PlotArmor;
  caption : option jsstring;
  fid : option Z;
  avatarUrl : option jsstring;
  displayName : option jsstring;
  username : option jsstring
}.

Record State : Type := {
  handle : jsstring;
  result : option Scan;
  isSubmitting : bool
}.

Record Outcome : Type := {
  state : State;
  toasts : list Toast
}.

Definition effectiveHandle (st : State) : jsstring := trim (handle st).

Definition handle_required : Toast :=
  {| title := lit "Handle required";
     description := lit "Type a Farcaster username.";
     destructive := true |}.

Definition failed_to_fetch : Toast :=
  {| title := lit "Failed to fetch profile";
     description := lit "Could not connect to Farcaster. Try again.";
     destructive := true |}.

Definition user_not_found (message : jsstring) : Toast :=
  {| title := lit "User not found";
     description := or_else message (lit "This Farcaster user doesn't exist.");
     destructive := true |}.

Definition something_went_wrong : Toast :=
  {| title := lit "Something went wrong";
     description := lit "Please try again.";
     destructive := true |}.

Definition done (st : State) (r : option Scan) (t : Toast) : Outcome :=
  {| state := {| handle := handle st; result := r; isSubmitting := false |};
     toasts := [t] |}.

Section Submit.

(** The lookup function, from the user name sent to what comes back. *)
Variable invoke : jsstring -> Invoked.

Definition onSubmit (st : State) : Outcome :=
  let value := trim (effectiveHandle st) in
  match value with
  | [] => {| state := st; toasts := [handle_required] |}
  | _ :: _ =>
    if Z.of_nat (length value) >? 32 then
      {| state := st; toasts := [too_long] |}
    else
      match invoke (replace_leading_at value) with
      | Rejects => done st (result st) something_went_wrong
      | Resolves true _ => done st (result st) failed_to_fetch
      | Resolves false None => done st (result st) (user_not_found [])
      | Resolves false (Some data) =>
        match error data with
        | Some (c :: m) => done st (result st) (user_not_found (c :: m))
        | _ =>
          match App.generateMetrics value with
          | Throw _ => done st (result st) something_went_wrong
          | Ok metrics =>
            done st
              (Some {| mainCharacter := App.mainCharacter metrics;
                       npcEnergy := App.npcEnergy metrics;
                       plotArmor := App.plotArmor metrics;
                       caption := App.caption metrics;
                       fid := data_fid data;
                       avatarUrl := data_pfp_url data;
                       displayName := data_display_name data;
                       username := data_username data |})
              calculated
          end
        end
      end
  end.

End Submit.

(** [x || d] for a string that may be undefined. *)
Definition or_text (x : option jsstring) (d : jsstring) : jsstring :=
  match x with
  | Some (c :: r) => c :: r
  | _ => d
  end.

(** A value in a template or an array join. *)
Definition fid_text (f : option Z) : jsstring :=
  match f with
  | Some n => num_to_string n
  | None => lit "undefined"
  end.

Definition shareText (appUrl : jsstring) (st : State) (r : Scan) : jsstring :=
  let username :=
    or_text (username r) (replace_leading_at (effectiveHandle st)) in
  join [10]
    [ lit "Main Character Energy: " ++ num_to_string (mainCharacter r)
        ++ lit "%";
      lit "NPC Energy: " ++ num_to_string (npcEnergy r) ++ lit "%";
      lit "Plot Armor: " ++ armor_text (plotArmor r);
      [];
      match caption r with Some c => c | None => [] end;
      [];
      lit "@" ++ username ++ [32; 8226; 32] ++ lit "FID: " ++ fid_text (fid r);
      [];
      lit "Scan your vibes: " ++ appUrl ].

Definition opening_warpcast : Toast :=
  {| title := lit "Opening Warpcast";
     description := lit "Confirm your cast in the new tab.";
     destructive := false |}.

(** [handleShare]: the address opened in a new tab and the toast, or the
    URIError that escapes.  [appUrl] is the origin and path of the window. *)
Definition handleShare (appUrl : jsstring) (st : State)
  : JS.result (option jsstring * Toast) :=
  match result st, effectiveHandle st with
  | None, _ => Ok (None, nothing_to_share)
  | Some _, [] => Ok (None, nothing_to_share)
  | Some r, _ :: _ =>
    bind (encodeURIComponent (shareText appUrl st r)) (fun text =>
    Ok (Some (lit "https://warpcast.com/~/compose?text=" ++ text),
        opening_warpcast))
  end.

End LookupPage.

(** ** Notions used in the statements *)

(** A string of white space only (the empty string is one). *)
Definition all_ws (s : jsstring) : Prop := Forall (fun c => is_ws c = true) s.

(** Well-formed UTF-16: every surrogate is half of a pair. *)
Fixpoint well_formed (s : jsstring) : bool :=
  match s with
  | [] => true
  | c :: r =>
    if is_low_surrogate c then false
    else if is_high_surrogate c then
      match r with
      | d :: r' => is_low_surrogate d && well_formed r'
      | [] => false
      end
    else well_formed r
  end.

(** White space only, as a test. *)
Definition whitespace_only (s : jsstring) : bool := forallb is_ws s.

(** The string starts neither with white space nor with a commercial at. *)
Definition starts_clean (s : jsstring) : bool :=
  match s with
  | [] => true
  | c :: _ => negb (is_ws c) && negb (c =? at_sign)
  end.

(** Every code unit is below 256: Basic Latin and Latin-1 Supplement, the
    strings on which [toLowerCase] above is the real function. *)
Definition latin1 (s : jsstring) : bool :=
  forallb (fun c => (0 <=? c) && (c <? 256)) s.

(** The handles on which the frame's order of the three steps (lower-case,
    strip, trim) and the order trim, strip, lower-case give the same string:
    the first character that is no white space is not a commercial at that
    white space precedes, and white space right after a leading commercial
    at is all that follows it. *)
Definition frame_in_order (raw : jsstring) : bool :=
  match raw with
  | [] => true
  | c :: r =>
    if is_ws c then negb (Page.startsWith_at (trimStart r))
    else if c =? at_sign then
      match r with
      | [] => true
      | d :: _ => negb (is_ws d) || whitespace_only r
      end
    else true
  end.


(** [part] occurs in [whole]. *)
Definition contains (part whole : jsstring) : Prop :=
  exists before after, whole = before ++ part ++ after.

(** The number that a string of decimal digits writes. *)
Definition decimal (s : jsstring) : option Z :=
  match s with
  | [] => None
  | _ :: _ =>
    fold_left (fun acc c =>
                 match acc with
                 | Some n =>
                   if (48 <=? c) && (c <=? 57) then Some (n * 10 + (c - 48))
                   else None
                 | None => None
                 end) s (Some 0)
  end.

(** The normalization in the order of the specification's words: trim, strip
    one leading commercial at, then lower-case where the call site does. *)
Definition spec_normalize (lower : bool) (raw : jsstring) : jsstring :=
  let stripped := replace_leading_at (trim raw) in
  if lower then toLowerCase stripped else stripped.

(** A one-character handle whose frame hash leaves the remainder [k] modulo
    41, for [k] from 0 to 40: a character from [)] to [7], or a small letter. *)
Definition handle_of_remainder (k : Z) : jsstring :=
  [if k <? 15 then 41 + k else 82 + k].

(** The hash loop without the wrap: Horner's rule for the polynomial in 31. *)
Definition horner (s : jsstring) : Z := fold_left (fun a c => a * 31 + c) s 0.

(** The hash that the page's [generateMetrics] derives everything from. *)
Definition page_hash (handle : jsstring) : Z :=
  App.hashHandle (or_else (or_else (App.normalize handle) App.fallback)
                          App.fallback).

(** Every code unit is a 16-bit number. *)
Definition code_units (s : jsstring) : bool :=
  forallb (fun c => (0 <=? c) && (c <? 65536)) s.

(** The characters of an encoded URI component: the unreserved ones and the
    percent sign of the escapes. *)
Definition uri_safe (c : Z) : bool := uri_unreserved c || (c =? 37).

(** A one-character handle whose frame hash leaves the remainder [k] modulo
    51, for [k] from 0 to 50. *)
Definition handle_of_score (k : Z) : jsstring :=
  [if k <? 25 then 102 + k else if k <? 33 then 153 + k else k].

(** The number of line feeds in a string. *)
Definition newlines (s : jsstring) : nat := count_occ Z.eq_dec s 10.

(** A minus sign or a decimal digit. *)
Definition is_num_char (c : Z) : bool := (c =? 45) || ((48 <=? c) && (c <=? 57)).

(** * Properties *)

(** ** 32-bit conversions *)

Section Conversions.

Lemma toUint32_range (x : Z) : 0 <= toUint32 x < 4294967296.
Proof. unfold toUint32. apply Z.mod_pos_bound. lia. Qed.

Lemma toInt32_range (x : Z) : -2147483648 <= toInt32 x < 2147483648.
Proof.
  unfold toInt32.
  pose proof (Z.mod_pos_bound x 4294967296 ltac:(lia)) as B.
  destruct (x mod 4294967296 <? 2147483648) eqn:E.
  - apply Z.ltb_lt in E. lia.
  - apply Z.ltb_ge in E. lia.
Qed.

(** The signed and the unsigned reading of a number are congruent to it. *)
Lemma toInt32_mod (x : Z) : toInt32 x mod 4294967296 = x mod 4294967296.
Proof.
  unfold toInt32.
  destruct (x mod 4294967296 <? 2147483648).
  - apply Z.mod_mod. lia.
  - replace (x mod 4294967296 - 4294967296)
      with (x mod 4294967296 + (-1) * 4294967296) by lia.
    rewrite Z.mod_add by lia. apply Z.mod_mod. lia.
Qed.

Lemma toInt32_congr (x y : Z) :
  x mod 4294967296 = y mod 4294967296 -> toInt32 x = toInt32 y.
Proof. unfold toInt32. intros ->. reflexivity. Qed.

Lemma toInt32_small (x : Z) :
  -2147483648 <= x < 2147483648 -> toInt32 x = x.
Proof.
  intros B. unfold toInt32.
  destruct (Z_lt_dec x 0) as [N | N].
  - replace (x mod 4294967296) with (x + 4294967296).
    + destruct (x + 4294967296 <? 2147483648) eqn:E; [apply Z.ltb_lt in E|]; lia.
    + apply Z.mod_unique with (q := -1); lia.
  - rewrite Z.mod_small by lia.
    destruct (x <? 2147483648) eqn:E; [|apply Z.ltb_ge in E]; lia.
Qed.

Lemma toInt32_idem (x : Z) : toInt32 (toInt32 x) = toInt32 x.
Proof. apply toInt32_small, toInt32_range. Qed.

Lemma toInt32_toUint32 (x : Z) : toInt32 (toUint32 x) = toInt32 x.
Proof. apply toInt32_congr. unfold toUint32. apply Z.mod_mod. lia. Qed.

Lemma toUint32_toInt32 (x : Z) : toUint32 (toInt32 x) = toUint32 x.
Proof. apply toInt32_mod. Qed.

(** [x | 0] is the conversion to a signed 32-bit integer. *)
Lemma bor_zero (x : Z) : bor x 0 = toInt32 x.
Proof.
  unfold bor. change (toInt32 0) with 0.
  rewrite Z.lor_0_r. apply toInt32_idem.
Qed.

(** [x >>> 0] is the conversion to an unsigned 32-bit integer. *)
Lemma ushr_zero (x : Z) : ushr x 0 = toUint32 x.
Proof. unfold ushr. change (toUint32 0 mod 32) with 0. apply Z.shiftr_0_r. Qed.

(** [x << 5] multiplies by 32, modulo 2^32. *)
Lemma shl_five (x : Z) : shl x 5 = toInt32 (x * 32).
Proof.
  unfold shl. change (toUint32 5 mod 32) with 5.
  rewrite Z.shiftl_mul_pow2 by lia. change (2 ^ 5) with 32.
  apply toInt32_congr.
  rewrite <- Z.mul_mod_idemp_l by lia.
  rewrite toInt32_mod.
  apply Z.mul_mod_idemp_l. lia.
Qed.

End Conversions.

(** ** The two hash functions *)

Section Hashes.

Lemma app_hash_step_eq (h c : Z) : App.hash_step h c = toUint32 (h * 31 + c).
Proof. apply ushr_zero. Qed.

Lemma frame_hash_step_eq (h c : Z) : Frame.hash_step h c = toInt32 (h * 31 + c).
Proof.
  unfold Frame.hash_step. rewrite bor_zero, shl_five.
  apply toInt32_congr.
  replace (toInt32 (h * 32) - h + c) with (toInt32 (h * 32) + (c - h)) by lia.
  rewrite <- Z.add_mod_idemp_l by lia.
  rewrite toInt32_mod.
  rewrite Z.add_mod_idemp_l by lia.
  f_equal. lia.
Qed.

(** One turn of the frame loop on the signed reading of an accumulator is the
    signed reading of one turn of the page's loop. *)
Lemma hash_steps_agree (h c : Z) :
  Frame.hash_step (toInt32 h) c = toInt32 (App.hash_step h c).
Proof.
  rewrite frame_hash_step_eq, app_hash_step_eq, toInt32_toUint32.
  apply toInt32_congr.
  rewrite <- Z.add_mod_idemp_l by lia.
  rewrite <- Z.mul_mod_idemp_l by lia.
  rewrite toInt32_mod.
  rewrite Z.mul_mod_idemp_l by lia.
  apply Z.add_mod_idemp_l. lia.
Qed.

Lemma hash_loops_agree (s : jsstring) (h : Z) :
  fold_left Frame.hash_step s (toInt32 h)
  = toInt32 (fold_left App.hash_step s h).
Proof.
  revert h. induction s as [| c s IH]; intros h; simpl.
  - reflexivity.
  - rewrite hash_steps_agree. apply IH.
Qed.

Lemma app_hash_loop_range (s : jsstring) (h : Z) :
  0 <= h < 4294967296 ->
  0 <= fold_left App.hash_step s h < 4294967296.
Proof.
  revert h. induction s as [| c s IH]; intros h B; simpl.
  - exact B.
  - apply IH. rewrite app_hash_step_eq. apply toUint32_range.
Qed.

Lemma app_hashHandle_range (s : jsstring) :
  0 <= App.hashHandle s < 4294967296.
Proof. apply app_hash_loop_range. lia. Qed.

Lemma frame_hash_loop_range (s : jsstring) (h : Z) :
  -2147483648 <= h < 2147483648 ->
  -2147483648 <= fold_left Frame.hash_step s h < 2147483648.
Proof.
  revert h. induction s as [| c s IH]; intros h B; simpl.
  - exact B.
  - apply IH. rewrite frame_hash_step_eq. apply toInt32_range.
Qed.

Lemma frame_hashHandle_range (s : jsstring) :
  0 <= Frame.hashHandle s <= 2147483648.
Proof.
  unfold Frame.hashHandle, Frame.hash_loop.
  pose proof (frame_hash_loop_range s 0 ltac:(lia)). lia.
Qed.

(** The remainder of a non-negative number lies below the divisor. *)
Lemma rem_range (h n : Z) : 0 <= h -> 0 < n -> 0 <= rem h n < n.
Proof. intros Hh Hn. unfold rem. apply Z.rem_bound_pos; lia. Qed.

(** The remainder of any number lies strictly between the divisor and its
    opposite. *)
Lemma rem_abs_range (h n : Z) : 0 < n -> - n < rem h n < n.
Proof.
  intros Hn. unfold rem.
  destruct (Z_lt_dec h 0) as [N | N].
  - pose proof (Z.rem_bound_pos_neg h n Hn ltac:(lia)). lia.
  - pose proof (Z.rem_bound_pos h n ltac:(lia) Hn). lia.
Qed.

End Hashes.

(** ** Strings: trimming, the leading commercial at, lower case *)

(** Comparisons of integers, brought to propositions for [lia]. *)
Ltac zbool :=
  repeat first
    [ rewrite Bool.andb_true_iff in * | rewrite Bool.orb_true_iff in *
    | rewrite Bool.andb_false_iff in * | rewrite Bool.orb_false_iff in *
    | rewrite Bool.negb_true_iff in * | rewrite Bool.negb_false_iff in *
    | rewrite Z.leb_le in * | rewrite Z.ltb_lt in * | rewrite Z.eqb_eq in *
    | rewrite Z.leb_gt in * | rewrite Z.ltb_ge in * | rewrite Z.eqb_neq in * ];
  try lia.

Ltac lower_cases c :=
  unfold lower_unit;
  destruct ((65 <=? c) && (c <=? 90)) eqn:?;
  [ | destruct ((192 <=? c) && (c <=? 222) && negb (c =? 215)) eqn:? ].

Section Strings.

Lemma is_ws_letters (c : Z) : 33 <= c <= 159 \/ 161 <= c <= 5759 -> is_ws c = false.
Proof. intros B. unfold is_ws. zbool. Qed.

Lemma is_ws_not_at (c : Z) : is_ws c = true -> (c =? at_sign) = false.
Proof.
  intros W. destruct (c =? at_sign) eqn:E; [| reflexivity].
  apply Z.eqb_eq in E. subst c. discriminate W.
Qed.

Lemma is_ws_not_surrogate (c : Z) :
  is_ws c = true -> is_low_surrogate c = false /\ is_high_surrogate c = false.
Proof.
  intros W. unfold is_ws in W. unfold is_low_surrogate, is_high_surrogate.
  split; zbool.
Qed.

Lemma lower_unit_ws (c : Z) : is_ws (lower_unit c) = is_ws c.
Proof.
  lower_cases c; try reflexivity;
    rewrite !is_ws_letters; try reflexivity; zbool.
Qed.

Lemma lower_unit_at (c : Z) : (lower_unit c =? at_sign) = (c =? at_sign).
Proof.
  unfold at_sign.
  lower_cases c; try reflexivity;
    apply Bool.eq_iff_eq_true; zbool.
Qed.

Lemma lower_unit_idem (c : Z) : lower_unit (lower_unit c) = lower_unit c.
Proof.
  lower_cases c; try (unfold lower_unit; rewrite ?Heqb, ?Heqb0; reflexivity).
  - unfold lower_unit.
    replace ((65 <=? c + 32) && (c + 32 <=? 90)) with false
      by (symmetry; zbool).
    replace ((192 <=? c + 32) && (c + 32 <=? 222) && negb (c + 32 =? 215))
      with false by (symmetry; zbool).
    reflexivity.
  - unfold lower_unit.
    replace ((65 <=? c + 32) && (c + 32 <=? 90)) with false
      by (symmetry; zbool).
    replace ((192 <=? c + 32) && (c + 32 <=? 222) && negb (c + 32 =? 215))
      with false by (symmetry; zbool).
    reflexivity.
Qed.

Lemma lower_unit_surrogate (c : Z) :
  is_low_surrogate (lower_unit c) = is_low_surrogate c
  /\ is_high_surrogate (lower_unit c) = is_high_surrogate c.
Proof.
  unfold is_low_surrogate, is_high_surrogate.
  lower_cases c; split; try reflexivity; apply Bool.eq_iff_eq_true; zbool.
Qed.

(** *** Leading white space *)

Lemma trimStart_ws (s : jsstring) : all_ws s -> trimStart s = [].
Proof.
  induction 1 as [| c r W _ IH]; simpl; [reflexivity |].
  rewrite W. exact IH.
Qed.

Lemma trimStart_length (s : jsstring) : (length (trimStart s) <= length s)%nat.
Proof.
  induction s as [| c r IH]; simpl; [lia |].
  destruct (is_ws c); simpl; lia.
Qed.

Lemma trimStart_fixed_head (c : Z) (r : jsstring) :
  trimStart (c :: r) = c :: r <-> is_ws c = false.
Proof.
  simpl. destruct (is_ws c) eqn:W; split; intros H; try reflexivity; try discriminate.
  pose proof (trimStart_length r) as L. rewrite H in L. simpl in L. lia.
Qed.

Lemma trimStart_idem (s : jsstring) : trimStart (trimStart s) = trimStart s.
Proof.
  induction s as [| c r IH]; simpl; [reflexivity |].
  destruct (is_ws c) eqn:W; [exact IH |]. simpl. rewrite W. reflexivity.
Qed.

Lemma trimStart_snoc (l : jsstring) (c : Z) :
  trimStart (l ++ [c])
  = match trimStart l with
    | [] => if is_ws c then [] else [c]
    | _ :: _ => trimStart l ++ [c]
    end.
Proof.
  induction l as [| d l IH]; simpl.
  - destruct (is_ws c); reflexivity.
  - destruct (is_ws d); [exact IH | reflexivity].
Qed.

(** *** Trailing white space, by recursion from the front *)

Lemma trimEnd_nil : trimEnd [] = [].
Proof. reflexivity. Qed.

Lemma trimEnd_cons (c : Z) (r : jsstring) :
  trimEnd (c :: r)
  = match trimEnd r with
    | [] => if is_ws c then [] else [c]
    | _ :: _ => c :: trimEnd r
    end.
Proof.
  unfold trimEnd. simpl rev. rewrite trimStart_snoc.
  destruct (trimStart (rev r)) as [| a l] eqn:E.
  - simpl. destruct (is_ws c); reflexivity.
  - rewrite rev_app_distr. change (rev [c]) with [c].
    change ([c] ++ rev (a :: l)) with (c :: rev (a :: l)).
    remember (rev (a :: l)) as t eqn:R.
    destruct t; [| reflexivity].
    apply (f_equal (@length Z)) in R. rewrite length_rev in R. discriminate R.
Qed.

Lemma trimEnd_cons_keep (c : Z) (r : jsstring) :
  is_ws c = false -> trimEnd (c :: r) = c :: trimEnd r.
Proof.
  intros W. rewrite trimEnd_cons, W. destruct (trimEnd r); reflexivity.
Qed.

Lemma trimEnd_length (s : jsstring) : (length (trimEnd s) <= length s)%nat.
Proof.
  unfold trimEnd. rewrite length_rev.
  pose proof (trimStart_length (rev s)) as L. rewrite length_rev in L. exact L.
Qed.

Lemma trimEnd_idem (s : jsstring) : trimEnd (trimEnd s) = trimEnd s.
Proof. unfold trimEnd. rewrite rev_involutive, trimStart_idem. reflexivity. Qed.



(** What [trimEnd] removes is white space. *)
Lemma trimEnd_split (s : jsstring) :
  exists w, all_ws w /\ s = trimEnd s ++ w.
Proof.
  induction s as [| c r [w [W E]]].
  - exists []. split; [constructor | reflexivity].
  - rewrite trimEnd_cons. destruct (trimEnd r) as [| a l] eqn:T.
    + destruct (is_ws c) eqn:Wc.
      * exists (c :: w). split; [constructor; assumption |].
        simpl in *. rewrite <- E. reflexivity.
      * exists w. split; [assumption |]. simpl in *. rewrite <- E. reflexivity.
    + exists w. split; [assumption |]. simpl. f_equal. exact E.
Qed.

(** *** Both ends *)

Lemma trim_ws (s : jsstring) : all_ws s -> trim s = [].
Proof. intros W. unfold trim. rewrite trimStart_ws by exact W. reflexivity. Qed.

Lemma trim_length (s : jsstring) : (length (trim s) <= length s)%nat.
Proof.
  unfold trim. pose proof (trimEnd_length (trimStart s)).
  pose proof (trimStart_length s). lia.
Qed.

Lemma trim_fixed (s : jsstring) :
  trimStart s = s -> trimEnd s = s -> trim s = s.
Proof. intros S E. unfold trim. rewrite S. exact E. Qed.

Lemma trimEnd_trim (s : jsstring) : trimEnd (trim s) = trim s.
Proof. apply trimEnd_idem. Qed.

Lemma trimStart_trimEnd (s : jsstring) :
  trimStart s = s -> trimStart (trimEnd s) = trimEnd s.
Proof.
  destruct s as [| c r]; [reflexivity |].
  intros F. apply trimStart_fixed_head in F.
  rewrite trimEnd_cons_keep by exact F. simpl. rewrite F. reflexivity.
Qed.

Lemma trimStart_trim (s : jsstring) : trimStart (trim s) = trim s.
Proof. apply trimStart_trimEnd, trimStart_idem. Qed.

Lemma trim_idem (s : jsstring) : trim (trim s) = trim s.
Proof. apply trim_fixed; [apply trimStart_trim | apply trimEnd_trim]. Qed.

Lemma trim_cons_keep (c : Z) (r : jsstring) :
  is_ws c = false -> trim (c :: r) = c :: trimEnd r.
Proof.
  intros W. unfold trim. simpl trimStart. rewrite W.
  apply trimEnd_cons_keep. exact W.
Qed.

(** *** The leading commercial at *)

Lemma replace_leading_at_length (s : jsstring) :
  (length (replace_leading_at s) <= length s)%nat.
Proof.
  destruct s as [| c r]; simpl; [lia |].
  destruct (c =? at_sign); simpl; lia.
Qed.

(** *** Lower case commutes with the other two steps *)

Lemma toLowerCase_idem (s : jsstring) :
  toLowerCase (toLowerCase s) = toLowerCase s.
Proof.
  unfold toLowerCase. rewrite map_map.
  apply map_ext. exact lower_unit_idem.
Qed.

Lemma toLowerCase_trimStart (s : jsstring) :
  toLowerCase (trimStart s) = trimStart (toLowerCase s).
Proof.
  induction s as [| c r IH]; simpl; [reflexivity |].
  rewrite lower_unit_ws. destruct (is_ws c); [exact IH | reflexivity].
Qed.

Lemma toLowerCase_trimEnd (s : jsstring) :
  toLowerCase (trimEnd s) = trimEnd (toLowerCase s).
Proof.
  unfold trimEnd, toLowerCase.
  rewrite map_rev. fold (toLowerCase (trimStart (rev s))).
  rewrite toLowerCase_trimStart. unfold toLowerCase.
  rewrite map_rev. reflexivity.
Qed.

Lemma toLowerCase_trim (s : jsstring) :
  toLowerCase (trim s) = trim (toLowerCase s).
Proof.
  unfold trim. rewrite toLowerCase_trimEnd, toLowerCase_trimStart.
  reflexivity.
Qed.

Lemma toLowerCase_replace (s : jsstring) :
  toLowerCase (replace_leading_at s) = replace_leading_at (toLowerCase s).
Proof.
  destruct s as [| c r]; simpl; [reflexivity |].
  rewrite lower_unit_at. destruct (c =? at_sign); reflexivity.
Qed.

Lemma toLowerCase_ws (s : jsstring) : all_ws s -> all_ws (toLowerCase s).
Proof.
  induction 1 as [| c r W _ IH]; simpl; constructor.
  - rewrite lower_unit_ws. exact W.
  - exact IH.
Qed.

End Strings.

(** ** Well-formed strings and [encodeURIComponent] *)

Section WellFormed.

(** Induction on strings, two code units at a time. *)
Lemma string_ind2 (P : jsstring -> Prop) :
  P [] ->
  (forall c, P [c]) ->
  (forall c d r, P r -> P (d :: r) -> P (c :: d :: r)) ->
  forall s, P s.
Proof.
  intros H0 H1 H2 s.
  assert (P s /\ forall c, P (c :: s)) as [H _]; [| exact H].
  induction s as [| d r [IHr IHc]]; split; auto.
Qed.

Lemma unreserved_not_surrogate (c : Z) :
  uri_unreserved c = true ->
  is_low_surrogate c = false /\ is_high_surrogate c = false.
Proof.
  unfold uri_unreserved, is_low_surrogate, is_high_surrogate.
  intros U. split; zbool.
Qed.

Lemma well_formed_cons_plain (c : Z) (r : jsstring) :
  is_low_surrogate c = false -> is_high_surrogate c = false ->
  well_formed (c :: r) = well_formed r.
Proof. intros L H. simpl. rewrite L, H. reflexivity. Qed.

(** A code unit that is no surrogate is encoded on its own. *)
Lemma encodeURIComponent_cons_plain (c : Z) (r : jsstring) :
  is_low_surrogate c = false -> is_high_surrogate c = false ->
  exists pre,
    encodeURIComponent (c :: r)
    = bind (encodeURIComponent r) (fun e => Ok (pre ++ e)).
Proof.
  intros L H. cbn [encodeURIComponent]. rewrite L, H.
  destruct (uri_unreserved c).
  - exists [c]. reflexivity.
  - exists (flat_map pct (utf8 c)). reflexivity.
Qed.

(** [encodeURIComponent] returns on the well-formed strings, and throws its
    URIError on the others. *)
Lemma encodeURIComponent_spec (s : jsstring) :
  match encodeURIComponent s with
  | Ok _ => well_formed s = true
  | Throw m => well_formed s = false /\ m = uri_malformed
  end.
Proof.
  assert (forall c r,
    is_low_surrogate c = false -> is_high_surrogate c = false ->
    match encodeURIComponent r with
    | Ok _ => well_formed r = true
    | Throw m => well_formed r = false /\ m = uri_malformed
    end ->
    match encodeURIComponent (c :: r) with
    | Ok _ => well_formed (c :: r) = true
    | Throw m => well_formed (c :: r) = false /\ m = uri_malformed
    end) as plain.
  { intros c r L H IH.
    destruct (encodeURIComponent_cons_plain c r L H) as [pre ->].
    rewrite (well_formed_cons_plain c r L H).
    destruct (encodeURIComponent r); exact IH. }
  induction s as [| c | c d r IHr IHd] using string_ind2.
  - reflexivity.
  - destruct (is_low_surrogate c) eqn:L.
    + cbn [encodeURIComponent well_formed].
      destruct (uri_unreserved c) eqn:U.
      * destruct (unreserved_not_surrogate c U) as [L' _]. congruence.
      * rewrite L. split; reflexivity.
    + destruct (is_high_surrogate c) eqn:H.
      * cbn [encodeURIComponent well_formed].
        destruct (uri_unreserved c) eqn:U.
        -- destruct (unreserved_not_surrogate c U) as [_ H']. congruence.
        -- rewrite L, H. split; reflexivity.
      * apply plain; [exact L | exact H | reflexivity].
  - destruct (is_low_surrogate c) eqn:L.
    + cbn [encodeURIComponent well_formed].
      destruct (uri_unreserved c) eqn:U.
      * destruct (unreserved_not_surrogate c U) as [L' _]. congruence.
      * rewrite L. split; reflexivity.
    + destruct (is_high_surrogate c) eqn:H.
      * cbn [encodeURIComponent well_formed].
        destruct (uri_unreserved c) eqn:U.
        -- destruct (unreserved_not_surrogate c U) as [_ H']. congruence.
        -- rewrite L, H. destruct (is_low_surrogate d); [| split; reflexivity].
           destruct (encodeURIComponent r); exact IHr.
      * apply plain; [exact L | exact H | exact IHd].
Qed.

Lemma well_formed_trimStart (s : jsstring) :
  well_formed s = true -> well_formed (trimStart s) = true.
Proof.
  induction s as [| c r IH]; [reflexivity |].
  intros W. cbn [trimStart]. destruct (is_ws c) eqn:E; [| exact W].
  apply IH. destruct (is_ws_not_surrogate c E) as [L H].
  rewrite <- (well_formed_cons_plain c r L H). exact W.
Qed.

Lemma well_formed_app_ws (t : jsstring) :
  forall w, all_ws w -> well_formed (t ++ w) = true -> well_formed t = true.
Proof.
  induction t as [| c | c d r IHr IHd] using string_ind2; intros w A W.
  - reflexivity.
  - simpl in *. destruct (is_low_surrogate c); [discriminate W |].
    destruct (is_high_surrogate c); [| reflexivity].
    destruct A as [| e w' E _]; [discriminate W |].
    destruct (is_ws_not_surrogate e E) as [L _]. rewrite L in W.
    discriminate W.
  - cbn [app well_formed] in *.
    destruct (is_low_surrogate c); [discriminate W |].
    destruct (is_high_surrogate c).
    + apply Bool.andb_true_iff in W as [Wd Wr].
      rewrite Wd. simpl. apply (IHr w A Wr).
    + apply (IHd w A W).
Qed.

Lemma well_formed_trimEnd (s : jsstring) :
  well_formed s = true -> well_formed (trimEnd s) = true.
Proof.
  intros W. destruct (trimEnd_split s) as [w [A E]].
  apply (well_formed_app_ws _ w A). rewrite <- E. exact W.
Qed.

Lemma well_formed_replace (s : jsstring) :
  well_formed s = true -> well_formed (replace_leading_at s) = true.
Proof.
  destruct s as [| c r]; [reflexivity |].
  intros W. cbn [replace_leading_at]. destruct (c =? at_sign) eqn:E; [| exact W].
  apply Z.eqb_eq in E. subst c. exact W.
Qed.

Lemma well_formed_lower (s : jsstring) :
  well_formed (toLowerCase s) = well_formed s.
Proof.
  induction s as [| c | c d r IHr IHd] using string_ind2.
  - reflexivity.
  - simpl. destruct (lower_unit_surrogate c) as [-> ->]. reflexivity.
  - unfold toLowerCase in *.
    change (map lower_unit (c :: d :: r))
      with (lower_unit c :: map lower_unit (d :: r)).
    cbn [well_formed].
    destruct (lower_unit_surrogate c) as [-> ->].
    destruct (is_low_surrogate c); [reflexivity |].
    destruct (is_high_surrogate c); [| exact IHd].
    cbn [map]. destruct (lower_unit_surrogate d) as [-> _].
    rewrite IHr. reflexivity.
Qed.

(** The string the page passes to [encodeURIComponent] is well formed when
    the handle is. *)
Lemma well_formed_seed (handle : jsstring) :
  well_formed handle = true ->
  well_formed (toLowerCase (or_else (App.normalize handle) App.fallback)) = true.
Proof.
  intros W. rewrite well_formed_lower.
  assert (well_formed (App.normalize handle) = true) as N.
  { apply well_formed_replace, well_formed_trimEnd, well_formed_trimStart, W. }
  destruct (App.normalize handle); [reflexivity | exact N].
Qed.

End WellFormed.

(** ** The hash of the frame responder against the hash of the page *)

(** C7. Hash-variant equivalence: for every string, the hash of the frame
    responder is the absolute value of the signed 32-bit reading of the
    hash of the interactive page; the frame accumulator is that signed
    reading, so the two accumulators are congruent modulo 2^32 after every
    prefix of the string, and one turn of either loop keeps them so. *)
Theorem hash_variants_equivalent (s : jsstring) :
  Frame.hashHandle s = Z.abs (toInt32 (App.hashHandle s))
  /\ Frame.hash_loop s = toInt32 (App.hashHandle s)
  /\ Frame.hash_loop s mod 4294967296 = App.hashHandle s
  /\ (forall n : nat,
        Frame.hash_loop (firstn n s) mod 4294967296
        = App.hashHandle (firstn n s))
  /\ (forall h c : Z,
        Frame.hash_step (toInt32 h) c mod 4294967296
        = App.hash_step (toUint32 h) c).
Proof.
  assert (forall t, Frame.hash_loop t = toInt32 (App.hashHandle t)) as L.
  { intros t. unfold Frame.hash_loop, App.hashHandle.
    change 0 with (toInt32 0) at 1. apply hash_loops_agree. }
  assert (forall t, Frame.hash_loop t mod 4294967296 = App.hashHandle t) as M.
  { intros t. rewrite L, toInt32_mod.
    apply Z.mod_small, app_hashHandle_range. }
  repeat split.
  - unfold Frame.hashHandle. rewrite L. reflexivity.
  - apply L.
  - apply M.
  - intros n. apply M.
  - intros h c. rewrite hash_steps_agree, toInt32_mod.
    rewrite !app_hash_step_eq. unfold toUint32.
    rewrite Z.mod_mod by lia.
    rewrite <- (Z.add_mod_idemp_l (h mod 4294967296 * 31)) by lia.
    rewrite Z.mul_mod_idemp_l by lia.
    rewrite Z.add_mod_idemp_l by lia. reflexivity.
Qed.

(** C10. The hash of the frame responder is a non-negative integer, at most
    2^31, for every string; so the three remainders that the frame's
    [generateMetrics] takes of it are non-negative (and below the divisor). *)
Theorem frame_hash_nonnegative (handle : jsstring) :
  0 <= Frame.hashHandle handle <= 2147483648
  /\ (let hash :=
        Frame.hashHandle (or_else (Frame.normalize handle) Frame.fallback) in
      0 <= hash <= 2147483648
      /\ 0 <= rem hash 51 < 51
      /\ 0 <= rem hash 41 < 41
      /\ 0 <= rem hash (Z.of_nat (length Frame.plotArmorLevels)) < 3).
Proof.
  split; [apply frame_hashHandle_range |].
  intros hash.
  pose proof (frame_hashHandle_range
                (or_else (Frame.normalize handle) Frame.fallback)) as B.
  fold hash in B.
  repeat split; try apply rem_range; simpl; lia.
Qed.

(** ** Ranges of the metrics *)

Lemma index_in {A : Type} (l : list A) (i : Z) :
  0 <= i < Z.of_nat (length l) -> exists x, index l i = Some x /\ In x l.
Proof.
  intros B. unfold index.
  destruct (i <? 0) eqn:E; [apply Z.ltb_lt in E; lia |].
  destruct (nth_error l (Z.to_nat i)) as [x |] eqn:N.
  - exists x. split; [reflexivity |]. eapply nth_error_In. exact N.
  - apply nth_error_None in N. lia.
Qed.

(** C2. Range and domain invariants: for every input string, the frame's
    result has [mainCharacter] in 50..100, [npcEnergy] in 0..100 and a
    [plotArmor] among Low, Medium and High; the page's result has the same,
    and its caption is one of the five fixed strings.  The page's function
    returns on every well-formed string; on a string with a lone surrogate
    its call of [encodeURIComponent] throws. *)
Theorem metrics_in_range (handle : jsstring) :
  (let m := Frame.generateMetrics handle in
   50 <= Frame.mainCharacter m <= 100
   /\ 0 <= Frame.npcEnergy m <= 100
   /\ (Frame.plotArmor m = Some Frame.Low
       \/ Frame.plotArmor m = Some Frame.Medium
       \/ Frame.plotArmor m = Some Frame.High))
  /\ match App.generateMetrics handle with
     | Ok r =>
       50 <= App.mainCharacter r <= 100
       /\ 0 <= App.npcEnergy r <= 100
       /\ (App.plotArmor r = App.Low \/ App.plotArmor r = App.Medium
           \/ App.plotArmor r = App.High)
       /\ (exists c, App.caption r = Some c /\ In c App.captions)
     | Throw _ => well_formed handle = false
     end
  /\ length App.captions = 5%nat.
Proof.
  split; [| split; [| reflexivity]].
  - pose proof (frame_hashHandle_range
                  (or_else (Frame.normalize handle) Frame.fallback)) as B.
    unfold Frame.generateMetrics. cbv zeta.
    cbn [Frame.mainCharacter Frame.npcEnergy Frame.plotArmor].
    set (hash := Frame.hashHandle _) in *.
    pose proof (rem_range hash 51 ltac:(lia) ltac:(lia)).
    pose proof (rem_range hash 41 ltac:(lia) ltac:(lia)).
    repeat split; try lia.
    destruct (index_in Frame.plotArmorLevels
                (rem hash (Z.of_nat (length Frame.plotArmorLevels))))
      as [x [-> _]].
    + apply rem_range; [lia | reflexivity].
    + destruct x; auto.
  - unfold App.generateMetrics. cbv zeta.
    pose proof (encodeURIComponent_spec
      (toLowerCase (or_else (App.normalize handle) App.fallback))) as E.
    destruct (encodeURIComponent _) as [seed | m].
    + cbn [bind App.mainCharacter App.npcEnergy App.plotArmor App.caption].
      pose proof (app_hashHandle_range
        (or_else (or_else (App.normalize handle) App.fallback) App.fallback))
        as B.
      set (hash := App.hashHandle _) in *.
      pose proof (rem_range hash 51 ltac:(lia) ltac:(lia)).
      repeat split; try lia.
      * destruct (rem (sar hash 7) 100 >? 70); auto.
        destruct (rem (sar hash 7) 100 >? 40); auto.
      * apply index_in. apply rem_range; [lia | reflexivity].
    + cbn [bind]. destruct E as [E _].
      destruct (well_formed handle) eqn:W; [| reflexivity].
      rewrite (well_formed_seed handle W) in E. discriminate E.
Qed.

(** ** The frame's npcEnergy *)

Lemma frame_npcEnergy_eq (handle : jsstring) :
  Frame.npcEnergy (Frame.generateMetrics handle)
  = 100 - Frame.hashHandle (or_else (Frame.normalize handle) Frame.fallback)
          mod 41.
Proof.
  unfold Frame.generateMetrics. cbv zeta. cbn [Frame.npcEnergy].
  unfold rem. rewrite Z.rem_mod_nonneg; [reflexivity | | lia].
  apply frame_hashHandle_range.
Qed.

Lemma handle_of_remainder_npc :
  forallb (fun k =>
             Frame.npcEnergy (Frame.generateMetrics (handle_of_remainder k))
             =? 100 - k)
          (map Z.of_nat (seq 0 41)) = true.
Proof. vm_compute. reflexivity. Qed.

(** C3, as the code has it.  For every handle the frame responder computes
    [npcEnergy = 100 - (h mod 41)], [h] the hash of the normalized handle (or
    of the fallback); the values this takes, over all hashes and over all
    handles alike, are exactly the integers from 60 to 100. *)
Theorem frame_npcEnergy_values :
  (forall handle,
     Frame.npcEnergy (Frame.generateMetrics handle)
     = 100 - Frame.hashHandle
               (or_else (Frame.normalize handle) Frame.fallback) mod 41)
  /\ (forall v, (exists h, 0 <= h /\ v = 100 - h mod 41) <-> 60 <= v <= 100)
  /\ (forall v,
        (exists handle, Frame.npcEnergy (Frame.generateMetrics handle) = v)
        <-> 60 <= v <= 100).
Proof.
  split; [exact frame_npcEnergy_eq |]. split; intros v; split.
  - intros [h [_ ->]]. pose proof (Z.mod_pos_bound h 41 ltac:(lia)). lia.
  - intros B. exists (100 - v). split; [lia |].
    rewrite Z.mod_small; lia.
  - intros [handle <-]. rewrite frame_npcEnergy_eq.
    pose proof (Z.mod_pos_bound
      (Frame.hashHandle (or_else (Frame.normalize handle) Frame.fallback))
      41 ltac:(lia)). lia.
  - intros B. exists (handle_of_remainder (100 - v)).
    pose proof handle_of_remainder_npc as F.
    rewrite forallb_forall in F.
    specialize (F (100 - v)).
    replace (100 - (100 - v)) with v in F by lia.
    apply Z.eqb_eq, F.
    replace (100 - v) with (Z.of_nat (Z.to_nat (100 - v))) by lia.
    apply in_map, in_seq. lia.
Qed.

Lemma frame_npcEnergy_values_witness :
  60 <= 60 <= 100
  /\ exists handle, Frame.npcEnergy (Frame.generateMetrics handle) = 60.
Proof.
  split; [lia |].
  apply (proj2 (proj2 (proj2 frame_npcEnergy_values) 60)). lia.
Defined.

(** The value 59 is not attained, by any handle nor by any hash. *)
Lemma frame_npcEnergy_never_59 :
  ~ ((exists handle, Frame.npcEnergy (Frame.generateMetrics handle) = 59)
     \/ (exists h, 0 <= h /\ 59 = 100 - h mod 41)).
Proof.
  intros [[handle E] | [h [_ E]]].
  - rewrite frame_npcEnergy_eq in E.
    pose proof (Z.mod_pos_bound
      (Frame.hashHandle (or_else (Frame.normalize handle) Frame.fallback))
      41 ltac:(lia)). lia.
  - pose proof (Z.mod_pos_bound h 41 ltac:(lia)). lia.
Qed.

(** ** Normalization *)

Section Normalization.

Lemma replace_clean (n : jsstring) :
  starts_clean n = true -> replace_leading_at n = n.
Proof.
  destruct n as [| c r]; [reflexivity |].
  simpl. intros C. apply Bool.andb_true_iff in C as [_ C].
  apply Bool.negb_true_iff in C. rewrite C. reflexivity.
Qed.



Lemma frame_normalize_lower (s : jsstring) :
  toLowerCase (Frame.normalize s) = Frame.normalize s.
Proof.
  unfold Frame.normalize.
  rewrite toLowerCase_trim, toLowerCase_replace, toLowerCase_idem.
  reflexivity.
Qed.

Lemma frame_normalize_clean (s : jsstring) :
  starts_clean (Frame.normalize s) = true ->
  Frame.normalize (Frame.normalize s) = Frame.normalize s.
Proof.
  intros C. unfold Frame.normalize at 1.
  rewrite frame_normalize_lower, (replace_clean _ C).
  unfold Frame.normalize. apply trim_idem.
Qed.

Lemma whitespace_only_all_ws (s : jsstring) :
  whitespace_only s = true -> all_ws s.
Proof.
  unfold whitespace_only, all_ws. intros W.
  apply Forall_forall. apply forallb_forall. exact W.
Qed.



Lemma startsWith_at_lower (t : jsstring) :
  Page.startsWith_at (toLowerCase t) = Page.startsWith_at t.
Proof. destruct t as [| d t']; [reflexivity | apply lower_unit_at]. Qed.

Lemma whitespace_only_lower (t : jsstring) :
  whitespace_only (toLowerCase t) = whitespace_only t.
Proof.
  unfold whitespace_only, toLowerCase.
  induction t as [| d t' IH]; [reflexivity |].
  cbn [map forallb]. rewrite lower_unit_ws, IH. reflexivity.
Qed.

Lemma frame_in_order_lower (raw : jsstring) :
  frame_in_order (toLowerCase raw) = frame_in_order raw.
Proof.
  destruct raw as [| c r]; [reflexivity |].
  cbn [toLowerCase map frame_in_order]. fold (toLowerCase r).
  rewrite lower_unit_ws, lower_unit_at.
  rewrite <- toLowerCase_trimStart, startsWith_at_lower.
  destruct r as [| d r']; [reflexivity |].
  rewrite whitespace_only_lower.
  cbn [toLowerCase map]. rewrite lower_unit_ws. reflexivity.
Qed.

Lemma trimStart_trimEnd_comm (r : jsstring) :
  trimStart (trimEnd r) = trimEnd (trimStart r).
Proof.
  induction r as [| c r IH]; [reflexivity |].
  cbn [trimStart]. destruct (is_ws c) eqn:W.
  - rewrite <- IH, trimEnd_cons, W.
    destruct (trimEnd r) as [| d t]; [reflexivity |].
    cbn [trimStart]. rewrite W. reflexivity.
  - rewrite (trimEnd_cons_keep c r W). cbn [trimStart]. rewrite W.
    reflexivity.
Qed.





Lemma app_normalize_ws (s : jsstring) : all_ws s -> App.normalize s = [].
Proof. intros W. unfold App.normalize. rewrite (trim_ws s W). reflexivity. Qed.

Lemma frame_normalize_ws (s : jsstring) : all_ws s -> Frame.normalize s = [].
Proof.
  intros W. unfold Frame.normalize. apply toLowerCase_ws in W.
  destruct W as [| c r Wc Wr]; [reflexivity |].
  cbn [replace_leading_at]. rewrite (is_ws_not_at c Wc).
  apply trim_ws. constructor; assumption.
Qed.

End Normalization.

Lemma trimEnd_nil_ws (t : jsstring) :
  trimEnd t = [] -> whitespace_only t = true.
Proof.
  induction t as [| c r IH]; [reflexivity |].
  rewrite trimEnd_cons. destruct (trimEnd r) as [| d u]; [| discriminate].
  destruct (is_ws c) eqn:W; [| discriminate].
  intros _. unfold whitespace_only in *. cbn [forallb].
  rewrite W. apply IH. reflexivity.
Qed.

(** [frame_in_order] leaves nothing out: on every other handle the two
    orders of stripping and trimming give different strings. *)
Lemma strip_trim_order_exact (x : jsstring) :
  trim (replace_leading_at x) = replace_leading_at (trim x) ->
  frame_in_order x = true.
Proof.
  destruct x as [| c r]; [reflexivity |].
  cbn [frame_in_order]. destruct (is_ws c) eqn:W.
  - cbn [replace_leading_at]. rewrite (is_ws_not_at c W).
    unfold trim. cbn [trimStart]. rewrite W.
    pose proof (trimStart_idem r) as I.
    destruct (trimStart r) as [| d t]; [reflexivity |].
    apply trimStart_fixed_head in I.
    rewrite (trimEnd_cons_keep d t I). cbn [replace_leading_at Page.startsWith_at].
    destruct (d =? at_sign); [| reflexivity].
    intros E. apply (f_equal (@length Z)) in E. cbn [length] in E. lia.
  - rewrite (trim_cons_keep c r W). cbn [replace_leading_at].
    destruct (c =? at_sign); [| reflexivity].
    destruct r as [| d r0]; [reflexivity |].
    destruct (is_ws d) eqn:Wd; [| reflexivity].
    cbn [negb orb].
    destruct (whitespace_only (d :: r0)) eqn:A; [reflexivity |].
    unfold trim. rewrite <- trimStart_trimEnd_comm.
    rewrite trimEnd_cons, Wd.
    destruct (trimEnd r0) as [| e u] eqn:T.
    { apply trimEnd_nil_ws in T. unfold whitespace_only in *.
      cbn [forallb] in A. rewrite Wd, T in A. discriminate A. }
    intros E. apply trimStart_fixed_head in E. congruence.
Qed.

Lemma frame_in_order_exact (raw : jsstring) :
  Frame.normalize raw = spec_normalize true raw -> frame_in_order raw = true.
Proof.
  unfold Frame.normalize, spec_normalize.
  rewrite toLowerCase_replace, toLowerCase_trim.
  intros E. rewrite <- frame_in_order_lower.
  apply strip_trim_order_exact, E.
Qed.







(** ** Determinism *)




(** ** The fallback *)

(** C6. Empty-input fallback: on the empty string and on every string of
    white space only, [generateMetrics] returns, and returns what it returns
    on the fallback literal of its call site, [maincharacter] in the page and
    [anon] in the frame responder.  The string hashed is that literal, and
    the metrics are those of its hash, 3736147344 in the page and 2998988 in
    the frame responder: 53, 34, Low, the fifth caption and 257344 in the
    page, 85, 98 and High in the frame responder, not the 50 and 100 (or 45)
    that the hash 0 of the empty string would give. *)
Theorem empty_input_fallback (s : jsstring) :
  whitespace_only s = true ->
  App.generateMetrics s = App.generateMetrics (lit "maincharacter")
  /\ (exists r, App.generateMetrics s = Ok r)
  /\ Frame.generateMetrics s = Frame.generateMetrics (lit "anon")
  /\ or_else (or_else (App.normalize s) App.fallback) App.fallback
     = lit "maincharacter"
  /\ or_else (Frame.normalize s) Frame.fallback = lit "anon"
  /\ App.hashHandle (lit "maincharacter") = 3736147344
  /\ Frame.hashHandle (lit "anon") = 2998988
  /\ App.hashHandle [] = 0 /\ Frame.hashHandle [] = 0
  /\ App.generateMetrics s
     = Ok {| App.mainCharacter := 53;
             App.npcEnergy := 34;
             App.plotArmor := App.Low;
             App.caption :=
               Some (lit "Somewhere, a writer is adding you to season two.");
             App.fid := 257344;
             App.avatarUrl :=
               lit "https://api.dicebear.com/9.x/thumbs/svg?seed=maincharacter" |}
  /\ Frame.generateMetrics s
     = {| Frame.mainCharacter := 85;
          Frame.npcEnergy := 98;
          Frame.plotArmor := Some Frame.High |}
  /\ 53 = 3736147344 mod 51 + 50
  /\ 85 = 2998988 mod 51 + 50 /\ 98 = 100 - 2998988 mod 41
  /\ 2998988 mod 3 = 2.
Proof.
  intros W. apply whitespace_only_all_ws in W.
  pose proof (app_normalize_ws s W) as NA.
  pose proof (frame_normalize_ws s W) as NF.
  assert (App.generateMetrics s = App.generateMetrics (lit "maincharacter")) as EA.
  { unfold App.generateMetrics at 1. rewrite NA. reflexivity. }
  assert (Frame.generateMetrics s = Frame.generateMetrics (lit "anon")) as EF.
  { unfold Frame.generateMetrics at 1. rewrite NF. reflexivity. }
  split; [exact EA |].
  split; [rewrite EA; eexists; reflexivity |].
  split; [exact EF |].
  rewrite NA, NF, EA, EF. repeat split.
Qed.

Lemma empty_input_fallback_witness :
  (whitespace_only [] = true
   /\ App.generateMetrics [] = App.generateMetrics (lit "maincharacter")
   /\ Frame.generateMetrics [] = Frame.generateMetrics (lit "anon"))
  /\ (whitespace_only [32; 9; 160] = true
      /\ App.generateMetrics [32; 9; 160]
         = App.generateMetrics (lit "maincharacter")
      /\ Frame.generateMetrics [32; 9; 160]
         = Frame.generateMetrics (lit "anon")).
Proof.
  split; (split; [reflexivity |]).
  - pose proof (empty_input_fallback [] eq_refl) as [A [_ [F _]]].
    split; [exact A | exact F].
  - pose proof (empty_input_fallback [32; 9; 160] eq_refl) as [A [_ [F _]]].
    split; [exact A | exact F].
Defined.

(** ** The frame responder's answers *)

(** A POST whose [untrustedData.inputText] is the string [text]. *)
Lemma frame_post_text (text : jsstring) :
  FrameServer.serve
    {| method := lit "POST";
       payload := Ok (JObj [(lit "untrustedData",
                             JObj [(lit "inputText", JStr text)])]) |}
  = FrameServer.html_response
      (FrameServer.buildFrameHtml text FrameServer.imageUrl FrameServer.appUrl).
Proof.
  unfold FrameServer.serve, FrameServer.respond. cbn [method payload].
  change (str_eqb (lit "POST") (lit "OPTIONS")) with false.
  change (str_eqb (lit "POST") (lit "GET")) with false.
  change (str_eqb (lit "POST") (lit "POST")) with true.
  cbv iota.
  change (get _ (lit "untrustedData"))
    with (@Ok (option json) (Some (JObj [(lit "inputText", JStr text)]))).
  cbn [bind or_default truthy].
  change (get _ (lit "inputText")) with (@Ok (option json) (Some (JStr text))).
  cbn [bind or_default truthy].
  destruct text; reflexivity.
Qed.

(** The markup for a handle that normalizes to a non-empty string carrying
    no further commercial at in front: its numbers are those of a direct call
    of [generateMetrics] on the handle. *)
Lemma buildFrameHtml_subtitle (handle img app : jsstring) :
  Frame.normalize handle <> [] ->
  starts_clean (Frame.normalize handle) = true ->
  FrameServer.buildFrameHtml handle img app
  = FrameServer.html_of
      (FrameServer.subtitle_of (Frame.normalize handle)
                               (Frame.generateMetrics handle))
      (FrameServer.state_of (Frame.normalize handle)) img app.
Proof.
  intros N C. unfold FrameServer.buildFrameHtml. cbv zeta.
  assert (Frame.generateMetrics (Frame.normalize handle)
          = Frame.generateMetrics handle) as ->.
  { unfold Frame.generateMetrics.
    rewrite (frame_normalize_clean handle C). reflexivity. }
  destruct (Frame.normalize handle) as [| c r]; [contradiction |].
  replace (Z.of_nat (length (c :: r)) >? 0) with true; [reflexivity |].
  symmetry. apply Z.gtb_lt. cbn [length]. lia.
Qed.

(** C8. The frame responder against the generator.  A GET request is
    answered with status 200 and a document that holds the description tag
    with the default subtitle.  A POST request whose body has
    [untrustedData.inputText] equal to [alice] is answered with status 200
    and a document that holds the description tag with the subtitle
    [@alice: MC 62 . NPC 67 . Armor Low] (the dots are middle dots), where
    62, 67 and Low are the mainCharacter, npcEnergy and plotArmor of the
    frame's [generateMetrics] on [alice]. *)
Theorem frame_responder_output :
  (forall p,
     let response := FrameServer.serve {| method := lit "GET"; payload := p |} in
     status response = 200
     /\ exists document,
          body response = Some document
          /\ contains
               (lit "<meta property=" ++ [34] ++ lit "og:description" ++ [34]
                ++ lit " content=" ++ [34]
                ++ lit "Drop your handle to scan your Main Character Energy"
                ++ [34] ++ lit " />")
               document)
  /\ (let response :=
        FrameServer.serve
          {| method := lit "POST";
             payload := Ok (JObj [(lit "untrustedData",
                                   JObj [(lit "inputText",
                                          JStr (lit "alice"))])]) |} in
      status response = 200
      /\ (exists document,
            body response = Some document
            /\ contains
                 (lit "<meta property=" ++ [34] ++ lit "og:description" ++ [34]
                  ++ lit " content=" ++ [34]
                  ++ lit "@alice: MC 62 " ++ [183] ++ lit " NPC 67 " ++ [183]
                  ++ lit " Armor Low"
                  ++ [34] ++ lit " />")
                 document)
      /\ Frame.generateMetrics (lit "alice")
         = {| Frame.mainCharacter := 62;
              Frame.npcEnergy := 67;
              Frame.plotArmor := Some Frame.Low |}).
Proof.
  split.
  - intros p. split; [reflexivity |].
    eexists. split; [reflexivity |].
    exists (lit "<!doctype html>" ++ FrameServer.nl ++ lit "<html>"
            ++ FrameServer.nl ++ lit "  <head>" ++ FrameServer.nl
            ++ FrameServer.meta (lit "og:title") (lit "Main Character Energy")
            ++ lit "    ").
    eexists. vm_compute. reflexivity.
  - cbv zeta. split; [reflexivity |]. split; [| reflexivity].
    eexists. split; [reflexivity |].
    exists (lit "<!doctype html>" ++ FrameServer.nl ++ lit "<html>"
            ++ FrameServer.nl ++ lit "  <head>" ++ FrameServer.nl
            ++ FrameServer.meta (lit "og:title") (lit "Main Character Energy")
            ++ lit "    ").
    eexists. vm_compute. reflexivity.
Qed.

(** ** The proxy without its credential *)

Section ProxyCredential.

Variable fetch : jsstring -> jsstring -> Proxy.Upstream.



End ProxyCredential.




(** * Further properties of the sources *)

(** ** The hashes as polynomials *)

Section Polynomial.

Lemma horner_from (s : jsstring) (a : Z) :
  fold_left (fun a c => a * 31 + c) s a
  = a * 31 ^ Z.of_nat (length s) + horner s.
Proof.
  unfold horner. revert a.
  induction s as [| c s IH]; intros a.
  - simpl. lia.
  - cbn [fold_left length]. rewrite IH, (IH (0 * 31 + c)).
    rewrite Nat2Z.inj_succ, Z.pow_succ_r by lia. lia.
Qed.

Lemma horner_app (s t : jsstring) :
  horner (s ++ t) = horner s * 31 ^ Z.of_nat (length t) + horner t.
Proof.
  unfold horner at 1. rewrite fold_left_app.
  fold (horner s). apply horner_from.
Qed.

Lemma app_hash_loop_horner (s : jsstring) (h : Z) :
  fold_left App.hash_step s (toUint32 h)
  = toUint32 (fold_left (fun a c => a * 31 + c) s h).
Proof.
  revert h. induction s as [| c s IH]; intros h; [reflexivity |].
  cbn [fold_left]. rewrite <- IH. f_equal.
  rewrite app_hash_step_eq. unfold toUint32.
  rewrite <- Z.add_mod_idemp_l by lia.
  rewrite Z.mul_mod_idemp_l by lia.
  apply Z.add_mod_idemp_l. lia.
Qed.

Lemma app_hashHandle_horner (s : jsstring) :
  App.hashHandle s = horner s mod 4294967296.
Proof.
  unfold App.hashHandle. change 0 with (toUint32 0) at 1.
  apply app_hash_loop_horner.
Qed.

Lemma frame_hash_loop_horner (s : jsstring) :
  Frame.hash_loop s = toInt32 (horner s).
Proof.
  unfold Frame.hash_loop. change 0 with (toInt32 0) at 1.
  rewrite hash_loops_agree. fold (App.hashHandle s).
  rewrite app_hashHandle_horner. apply toInt32_toUint32.
Qed.

End Polynomial.

(** The page's hash is the value, modulo 2^32, of the polynomial in 31 whose
    coefficients are the code units; hence the hash of a concatenation comes
    from the hashes of the two parts and the length of the second. *)
Theorem app_hashHandle_polynomial (s t : jsstring) :
  App.hashHandle s = horner s mod 4294967296
  /\ App.hashHandle (s ++ t)
     = (App.hashHandle s * 31 ^ Z.of_nat (length t) + App.hashHandle t)
       mod 4294967296.
Proof.
  split; [apply app_hashHandle_horner |].
  rewrite !app_hashHandle_horner, horner_app.
  rewrite <- (Z.add_mod_idemp_r _ (horner t mod 4294967296)) by lia.
  rewrite Z.mod_mod by lia.
  rewrite Z.add_mod_idemp_r by lia.
  rewrite <- (Z.add_mod_idemp_l (horner s mod 4294967296 * _)) by lia.
  rewrite Z.mul_mod_idemp_l by lia.
  rewrite Z.add_mod_idemp_l by lia. reflexivity.
Qed.

(** The frame's hash is the absolute value of the signed 32-bit reading of
    the same polynomial, and its accumulator composes over a concatenation
    in the same way. *)
Theorem frame_hashHandle_polynomial (s t : jsstring) :
  Frame.hashHandle s = Z.abs (toInt32 (horner s))
  /\ Frame.hash_loop (s ++ t)
     = toInt32 (Frame.hash_loop s * 31 ^ Z.of_nat (length t)
                + Frame.hash_loop t).
Proof.
  split.
  - unfold Frame.hashHandle. rewrite frame_hash_loop_horner. reflexivity.
  - rewrite !frame_hash_loop_horner, horner_app.
    apply toInt32_congr.
    rewrite <- (Z.add_mod_idemp_r _ (toInt32 (horner t))) by lia.
    rewrite toInt32_mod.
    rewrite Z.add_mod_idemp_r by lia.
    rewrite <- (Z.add_mod_idemp_l (toInt32 (horner s) * _)) by lia.
    rewrite <- (Z.mul_mod_idemp_l (toInt32 (horner s))) by lia.
    rewrite toInt32_mod.
    rewrite Z.mul_mod_idemp_l by lia.
    rewrite Z.add_mod_idemp_l by lia. reflexivity.
Qed.

(** ** The page's metrics *)

Section PageMetrics.

Lemma or_else_fallback (n : jsstring) :
  or_else (or_else n App.fallback) App.fallback = or_else n App.fallback.
Proof. destruct n; reflexivity. Qed.

(** The two outcomes of the page's [generateMetrics], with every field of
    the result written out over the hash. *)
Lemma app_generateMetrics_cases (handle : jsstring) :
  let hash := page_hash handle in
  (exists seed,
     encodeURIComponent
       (toLowerCase (or_else (App.normalize handle) App.fallback)) = Ok seed
     /\ App.generateMetrics handle
        = Ok {| App.mainCharacter := rem hash 51 + 50;
                App.npcEnergy :=
                  Z.max 0 (Z.min 100
                    (100 - (rem hash 51 + 50) + rem (sar hash 3) 11 - 5));
                App.plotArmor :=
                  if rem (sar hash 7) 100 >? 70 then App.High
                  else if rem (sar hash 7) 100 >? 40 then App.Medium
                  else App.Low;
                App.caption :=
                  index App.captions (rem hash (Z.of_nat (length App.captions)));
                App.fid := rem hash 900000 + 10000;
                App.avatarUrl :=
                  lit "https://api.dicebear.com/9.x/thumbs/svg?seed=" ++ seed |})
  \/ (well_formed handle = false
      /\ App.generateMetrics handle = Throw uri_malformed).
Proof.
  intros hash. unfold App.generateMetrics. cbv zeta. fold (page_hash handle).
  fold hash.
  pose proof (encodeURIComponent_spec
    (toLowerCase (or_else (App.normalize handle) App.fallback))) as E.
  destruct (encodeURIComponent _) as [seed | m].
  - left. exists seed. split; reflexivity.
  - right. destruct E as [E ->]. split; [| reflexivity].
    destruct (well_formed handle) eqn:W; [| reflexivity].
    rewrite (well_formed_seed handle W) in E. discriminate E.
Qed.

Lemma page_hash_range (handle : jsstring) :
  0 <= page_hash handle < 4294967296.
Proof. apply app_hashHandle_range. Qed.

(** A shift to the right of the signed reading: the sign of the outcome. *)
Lemma sar_sign (h n : Z) :
  0 <= h < 4294967296 -> 0 <= n < 32 ->
  (h < 2147483648 -> 0 <= sar h n) /\ (2147483648 <= h -> sar h n < 0).
Proof.
  intros B N. unfold sar.
  replace (toUint32 n mod 32) with n.
  2: { unfold toUint32. rewrite (Z.mod_small n 4294967296) by lia.
       symmetry. apply Z.mod_small. lia. }
  rewrite Z.shiftr_div_pow2 by lia.
  assert (0 < 2 ^ n) as P by (apply Z.pow_pos_nonneg; lia).
  split; intros H.
  - rewrite toInt32_small by lia. apply Z.div_pos; lia.
  - assert (toInt32 h = h - 4294967296) as ->.
    { unfold toInt32. rewrite Z.mod_small by lia.
      destruct (h <? 2147483648) eqn:E; [apply Z.ltb_lt in E; lia | reflexivity]. }
    apply Z.div_lt_upper_bound; lia.
Qed.

End PageMetrics.

(** The decorative identifier of the page lies between 10000 and 909999,
    and its npcEnergy never exceeds 55: the upper clamp at 100 is never
    reached, and mainCharacter and npcEnergy sum to a number between 85 and
    105. *)
Theorem page_fid_and_complement (handle : jsstring) :
  match App.generateMetrics handle with
  | Ok r =>
    10000 <= App.fid r <= 909999
    /\ 0 <= App.npcEnergy r <= 55
    /\ 85 <= App.mainCharacter r + App.npcEnergy r <= 105
  | Throw _ => well_formed handle = false
  end.
Proof.
  destruct (app_generateMetrics_cases handle) as [[seed [_ ->]] | [W ->]];
    [| exact W].
  cbn [App.fid App.npcEnergy App.mainCharacter].
  pose proof (page_hash_range handle) as B.
  pose proof (rem_range (page_hash handle) 51 ltac:(lia) ltac:(lia)).
  pose proof (rem_range (page_hash handle) 900000 ltac:(lia) ltac:(lia)).
  pose proof (rem_abs_range (sar (page_hash handle) 3) 11 ltac:(lia)).
  lia.
Qed.

(** The sign of the hash, read as a signed 32-bit number by the two shifts,
    decides the page's result.  With the top bit clear, mainCharacter and
    npcEnergy sum to 95 at least; with the top bit set, the plot armor is
    Low and the sum is 100 at most. *)
Theorem page_hash_sign (handle : jsstring) (r : App.EnergyResult) :
  App.generateMetrics handle = Ok r ->
  (page_hash handle < 2147483648 ->
   95 <= App.mainCharacter r + App.npcEnergy r <= 105)
  /\ (2147483648 <= page_hash handle ->
      App.plotArmor r = App.Low
      /\ 85 <= App.mainCharacter r + App.npcEnergy r <= 100).
Proof.
  intros E.
  destruct (app_generateMetrics_cases handle) as [[seed [_ G]] | [_ G]];
    rewrite G in E; [| discriminate E].
  apply (f_equal (fun x => match x with Ok a => a | Throw _ => r end)) in E.
  cbv beta iota in E. subst r.
  cbn [App.plotArmor App.npcEnergy App.mainCharacter].
  pose proof (page_hash_range handle) as B.
  pose proof (rem_range (page_hash handle) 51 ltac:(lia) ltac:(lia)) as R51.
  pose proof (sar_sign (page_hash handle) 3 B ltac:(lia)) as [P3 N3].
  pose proof (sar_sign (page_hash handle) 7 B ltac:(lia)) as [_ N7].
  split; intros H.
  - specialize (P3 H).
    pose proof (rem_range (sar (page_hash handle) 3) 11 P3 ltac:(lia)) as R3.
    lia.
  - specialize (N3 H). specialize (N7 H).
    pose proof (Z.rem_bound_pos_neg (sar (page_hash handle) 3) 11
                  ltac:(lia) ltac:(lia)) as R3.
    pose proof (Z.rem_bound_pos_neg (sar (page_hash handle) 7) 100
                  ltac:(lia) ltac:(lia)) as R7.
    fold (rem (sar (page_hash handle) 3) 11) in R3.
    fold (rem (sar (page_hash handle) 7) 100) in R7.
    split; [| lia].
    destruct (rem (sar (page_hash handle) 7) 100 >? 70) eqn:E1;
      [apply Z.gtb_lt in E1; lia |].
    destruct (rem (sar (page_hash handle) 7) 100 >? 40) eqn:E2;
      [apply Z.gtb_lt in E2; lia | reflexivity].
Qed.

Lemma page_hash_sign_witness :
  (exists r,
     App.generateMetrics (lit "maincharacter") = Ok r
     /\ 2147483648 <= page_hash (lit "maincharacter")
     /\ App.plotArmor r = App.Low)
  /\ (exists r,
        App.generateMetrics (lit "bob") = Ok r
        /\ page_hash (lit "bob") < 2147483648
        /\ 95 <= App.mainCharacter r + App.npcEnergy r <= 105).
Proof.
  split; eexists; (split; [reflexivity |]).
  - assert (2147483648 <= page_hash (lit "maincharacter")) as H
        by (vm_compute; discriminate).
    split; [exact H |].
    apply (proj2 (page_hash_sign (lit "maincharacter") _ eq_refl) H).
  - assert (page_hash (lit "bob") < 2147483648) as H
        by (vm_compute; reflexivity).
    split; [exact H |].
    apply (proj1 (page_hash_sign (lit "bob") _ eq_refl) H).
Defined.

(** ** What [encodeURIComponent] lets through *)

Section Encoding.

Lemma code_units_cons (c : Z) (s : jsstring) :
  code_units (c :: s) = true <-> 0 <= c < 65536 /\ code_units s = true.
Proof.
  unfold code_units. cbn [forallb]. rewrite Bool.andb_true_iff.
  split; intros [H T]; (split; [| exact T]); zbool.
Qed.

Lemma code_units_app (s t : jsstring) :
  code_units (s ++ t) = true <-> code_units s = true /\ code_units t = true.
Proof. unfold code_units. rewrite forallb_app. apply Bool.andb_true_iff. Qed.

Lemma hex_digit_safe (d : Z) : 0 <= d < 16 -> uri_safe (hex_digit d) = true.
Proof.
  intros B. unfold uri_safe, uri_unreserved, hex_digit.
  destruct (d <? 10) eqn:E; zbool.
Qed.

Lemma pct_safe (b : Z) : 0 <= b < 256 -> forallb uri_safe (pct b) = true.
Proof.
  intros B. unfold pct. cbn [forallb].
  rewrite !hex_digit_safe; [reflexivity | |].
  - apply Z.mod_pos_bound. lia.
  - split; [apply Z.div_pos; lia | apply Z.div_lt_upper_bound; lia].
Qed.

Lemma utf8_bytes (cp : Z) :
  0 <= cp < 1114112 -> Forall (fun b => 0 <= b < 256) (utf8 cp).
Proof.
  intros B. unfold utf8.
  destruct (cp <? 128) eqn:E1; [apply Z.ltb_lt in E1 | apply Z.ltb_ge in E1].
  { repeat constructor; lia. }
  destruct (cp <? 2048) eqn:E2; [apply Z.ltb_lt in E2 | apply Z.ltb_ge in E2].
  { repeat constructor; Z.div_mod_to_equations; lia. }
  destruct (cp <? 65536) eqn:E3; [apply Z.ltb_lt in E3 | apply Z.ltb_ge in E3].
  { repeat constructor; Z.div_mod_to_equations; lia. }
  repeat constructor; Z.div_mod_to_equations; lia.
Qed.

Lemma escapes_safe (cp : Z) :
  0 <= cp < 1114112 -> forallb uri_safe (flat_map pct (utf8 cp)) = true.
Proof.
  intros B. pose proof (utf8_bytes cp B) as U.
  induction U as [| b l Hb _ IH]; [reflexivity |].
  cbn [flat_map]. rewrite forallb_app, (pct_safe b Hb). exact IH.
Qed.

Lemma encodeURIComponent_cons_single (c : Z) (r : jsstring) :
  is_low_surrogate c = false -> is_high_surrogate c = false ->
  encodeURIComponent (c :: r)
  = bind (encodeURIComponent r)
         (fun e => Ok ((if uri_unreserved c then [c]
                        else flat_map pct (utf8 c)) ++ e)).
Proof.
  intros L H. cbn [encodeURIComponent]. rewrite L, H.
  destruct (uri_unreserved c); reflexivity.
Qed.

Lemma encodeURIComponent_cons_pair (c d : Z) (r : jsstring) :
  is_high_surrogate c = true -> is_low_surrogate d = true ->
  encodeURIComponent (c :: d :: r)
  = bind (encodeURIComponent r)
         (fun e => Ok (flat_map pct
                         (utf8 ((c - 55296) * 1024 + (d - 56320) + 65536))
                       ++ e)).
Proof.
  intros H L. cbn [encodeURIComponent].
  destruct (uri_unreserved c) eqn:U.
  - destruct (unreserved_not_surrogate c U) as [_ H']. congruence.
  - assert (is_low_surrogate c = false) as ->.
    { unfold is_low_surrogate, is_high_surrogate in *. zbool. }
    rewrite H, L. reflexivity.
Qed.

(** The outcome of [encodeURIComponent] on 16-bit code units is made of
    unreserved characters and percent signs only. *)
Lemma encodeURIComponent_safe (s : jsstring) :
  code_units s = true ->
  forall e, encodeURIComponent s = Ok e -> forallb uri_safe e = true.
Proof.
  assert (forall c r,
    0 <= c < 65536 ->
    is_low_surrogate c = false -> is_high_surrogate c = false ->
    (forall e, encodeURIComponent r = Ok e -> forallb uri_safe e = true) ->
    forall e, encodeURIComponent (c :: r) = Ok e -> forallb uri_safe e = true)
    as single.
  { intros c r B L H IH e.
    rewrite (encodeURIComponent_cons_single c r L H).
    destruct (encodeURIComponent r) as [e' |]; [| discriminate].
    cbn [bind]. intros E.
    apply (f_equal (fun x => match x with Ok a => a | Throw _ => e end)) in E.
    cbv beta iota in E. subst e. rewrite forallb_app, (IH e' eq_refl).
    destruct (uri_unreserved c) eqn:U.
    - cbn [forallb]. unfold uri_safe. rewrite U. reflexivity.
    - rewrite escapes_safe by lia. reflexivity. }
  induction s as [| c | c d r IHr IHd] using string_ind2.
  - intros _ e E. cbn [encodeURIComponent] in E.
    apply (f_equal (fun x => match x with Ok a => a | Throw _ => e end)) in E.
    cbv beta iota in E. subst e. reflexivity.
  - intros U. apply code_units_cons in U as [B _].
    destruct (is_low_surrogate c) eqn:L.
    { intros e E. pose proof (encodeURIComponent_spec [c]) as S.
      rewrite E in S. cbn [well_formed] in S. rewrite L in S. discriminate S. }
    destruct (is_high_surrogate c) eqn:H.
    { intros e E. pose proof (encodeURIComponent_spec [c]) as S.
      rewrite E in S. cbn [well_formed] in S. rewrite L, H in S.
      discriminate S. }
    apply single; try assumption.
    intros e E. cbn [encodeURIComponent] in E.
    apply (f_equal (fun x => match x with Ok a => a | Throw _ => e end)) in E.
    cbv beta iota in E. subst e. reflexivity.
  - intros U. apply code_units_cons in U as [Bc U].
    pose proof U as Ud. apply code_units_cons in Ud as [Bd Ur].
    destruct (is_low_surrogate c) eqn:L.
    { intros e E. pose proof (encodeURIComponent_spec (c :: d :: r)) as S.
      rewrite E in S. cbn [well_formed] in S. rewrite L in S. discriminate S. }
    destruct (is_high_surrogate c) eqn:H.
    + destruct (is_low_surrogate d) eqn:Ld.
      * intros e. rewrite (encodeURIComponent_cons_pair c d r H Ld).
        destruct (encodeURIComponent r) as [e' |]; [| discriminate].
        cbn [bind]. intros E.
        apply (f_equal (fun x => match x with Ok a => a | Throw _ => e end))
          in E.
        cbv beta iota in E. subst e.
        rewrite forallb_app, (IHr Ur e' eq_refl), escapes_safe; [reflexivity |].
        unfold is_high_surrogate, is_low_surrogate in *. zbool.
      * intros e E. pose proof (encodeURIComponent_spec (c :: d :: r)) as S.
        rewrite E in S. cbn [well_formed] in S. rewrite L, H, Ld in S.
        discriminate S.
    + apply single; try assumption. apply IHd. exact U.
Qed.

(** Trimming, stripping and lower-casing keep code units 16-bit. *)
Lemma code_units_trimStart (s : jsstring) :
  code_units s = true -> code_units (trimStart s) = true.
Proof.
  induction s as [| c r IH]; [reflexivity |].
  intros U. cbn [trimStart]. destruct (is_ws c); [| exact U].
  apply code_units_cons in U as [_ U]. apply IH, U.
Qed.

Lemma code_units_trimEnd (s : jsstring) :
  code_units s = true -> code_units (trimEnd s) = true.
Proof.
  intros U. destruct (trimEnd_split s) as [w [_ E]].
  rewrite E in U. apply code_units_app in U as [U _]. exact U.
Qed.

Lemma code_units_replace (s : jsstring) :
  code_units s = true -> code_units (replace_leading_at s) = true.
Proof.
  destruct s as [| c r]; [reflexivity |].
  intros U. cbn [replace_leading_at]. destruct (c =? at_sign); [| exact U].
  apply code_units_cons in U as [_ U]. exact U.
Qed.

Lemma lower_unit_range (c : Z) : 0 <= c < 65536 -> 0 <= lower_unit c < 65536.
Proof. intros B. lower_cases c; zbool. Qed.

Lemma code_units_lower (s : jsstring) :
  code_units s = true -> code_units (toLowerCase s) = true.
Proof.
  induction s as [| c r IH]; [reflexivity |].
  intros U. apply code_units_cons in U as [B U].
  cbn [toLowerCase map]. apply code_units_cons.
  split; [apply lower_unit_range, B | apply IH, U].
Qed.

End Encoding.

(** The avatar address of the page, for a handle of 16-bit code units: the
    fixed address of the image service followed by a seed made of unreserved
    characters and percent escapes only, so that the seed cannot add a
    parameter to the query. *)
Theorem page_avatarUrl_safe (handle : jsstring) (r : App.EnergyResult) :
  code_units handle = true ->
  App.generateMetrics handle = Ok r ->
  exists seed,
    App.avatarUrl r = lit "https://api.dicebear.com/9.x/thumbs/svg?seed=" ++ seed
    /\ forallb uri_safe seed = true.
Proof.
  intros U E.
  destruct (app_generateMetrics_cases handle) as [[seed [S G]] | [_ G]];
    rewrite G in E; [| discriminate E].
  apply (f_equal (fun x => match x with Ok a => a | Throw _ => r end)) in E.
  cbv beta iota in E. subst r.
  exists seed. split; [reflexivity |].
  refine (encodeURIComponent_safe _ _ seed S).
  apply code_units_lower.
  assert (code_units (App.normalize handle) = true) as N.
  { apply code_units_replace, code_units_trimEnd, code_units_trimStart, U. }
  destruct (App.normalize handle); [reflexivity | exact N].
Qed.

Lemma page_avatarUrl_safe_witness :
  exists r seed,
    App.generateMetrics (lit "Zoe B?") = Ok r
    /\ App.avatarUrl r
       = lit "https://api.dicebear.com/9.x/thumbs/svg?seed=" ++ seed
    /\ forallb uri_safe seed = true.
Proof.
  eexists.
  destruct (page_avatarUrl_safe (lit "Zoe B?") _ eq_refl eq_refl)
    as [seed [A S]].
  exists seed. split; [reflexivity |]. split; [exact A | exact S].
Defined.


(** ** What the metrics do not depend on *)

Section Invariance.

Lemma trimStart_app_ws (w s : jsstring) :
  all_ws w -> trimStart (w ++ s) = trimStart s.
Proof.
  induction 1 as [| c r W _ IH]; [reflexivity |].
  cbn [app trimStart]. rewrite W. exact IH.
Qed.

Lemma trimEnd_app_ws (s w : jsstring) :
  all_ws w -> trimEnd (s ++ w) = trimEnd s.
Proof.
  intros W. unfold trimEnd. rewrite rev_app_distr.
  rewrite trimStart_app_ws by (apply Forall_rev; exact W). reflexivity.
Qed.

Lemma trimStart_app_r (s w : jsstring) :
  all_ws w ->
  trimStart (s ++ w)
  = match trimStart s with [] => [] | _ :: _ => trimStart s ++ w end.
Proof.
  intros W. induction s as [| c r IH].
  - cbn [app trimStart]. apply trimStart_ws, W.
  - cbn [app trimStart]. destruct (is_ws c); [exact IH | reflexivity].
Qed.

Lemma trim_app_ws (s w : jsstring) : all_ws w -> trim (s ++ w) = trim s.
Proof.
  intros W. unfold trim. rewrite (trimStart_app_r s w W).
  destruct (trimStart s) as [| c r]; [reflexivity |].
  apply trimEnd_app_ws, W.
Qed.

Lemma trim_ws_app (w s : jsstring) : all_ws w -> trim (w ++ s) = trim s.
Proof. intros W. unfold trim. rewrite (trimStart_app_ws w s W). reflexivity. Qed.

Lemma app_normalize_padding (w1 handle w2 : jsstring) :
  all_ws w1 -> all_ws w2 ->
  App.normalize (w1 ++ handle ++ w2) = App.normalize handle.
Proof.
  intros W1 W2. unfold App.normalize.
  rewrite (trim_ws_app w1 _ W1), (trim_app_ws handle w2 W2). reflexivity.
Qed.

Lemma frame_normalize_trailing (handle w : jsstring) :
  all_ws w -> Frame.normalize (handle ++ w) = Frame.normalize handle.
Proof.
  intros W. unfold Frame.normalize, toLowerCase. rewrite map_app.
  fold (toLowerCase handle). fold (toLowerCase w).
  apply toLowerCase_ws in W.
  destruct (toLowerCase handle) as [| c r].
  - cbn [app replace_leading_at].
    destruct W as [| d w' Wd Ww]; [reflexivity |].
    cbn [replace_leading_at]. rewrite (is_ws_not_at d Wd).
    apply trim_ws. constructor; assumption.
  - cbn [app replace_leading_at].
    destruct (c =? at_sign);
      [apply trim_app_ws, W | apply (trim_app_ws (c :: r)), W].
Qed.

Lemma frame_normalize_case (handle : jsstring) :
  Frame.normalize (toLowerCase handle) = Frame.normalize handle.
Proof. unfold Frame.normalize. rewrite toLowerCase_idem. reflexivity. Qed.

Lemma frame_normalize_at (handle : jsstring) :
  Page.startsWith_at handle = false ->
  Frame.normalize (at_sign :: handle) = Frame.normalize handle.
Proof.
  intros S. unfold Frame.normalize. cbn [toLowerCase map replace_leading_at].
  rewrite lower_unit_at, Z.eqb_refl. fold (toLowerCase handle).
  destruct handle as [| c r]; [reflexivity |].
  cbn [toLowerCase map replace_leading_at]. rewrite lower_unit_at.
  cbn [Page.startsWith_at] in S. rewrite S. reflexivity.
Qed.

Lemma app_normalize_at (handle : jsstring) :
  starts_clean handle = true ->
  App.normalize (at_sign :: handle) = App.normalize handle.
Proof.
  intros C. unfold App.normalize.
  rewrite trim_cons_keep by reflexivity.
  cbn [replace_leading_at]. rewrite Z.eqb_refl.
  destruct handle as [| c r]; [reflexivity |].
  cbn [starts_clean] in C. apply Bool.andb_true_iff in C as [W A].
  apply Bool.negb_true_iff in W. apply Bool.negb_true_iff in A.
  rewrite (trim_cons_keep c r W). cbn [replace_leading_at]. rewrite A.
  apply trimEnd_cons_keep, W.
Qed.

Lemma app_normalize_lower (handle : jsstring) :
  App.normalize (toLowerCase handle) = toLowerCase (App.normalize handle).
Proof.
  unfold App.normalize. rewrite toLowerCase_replace, toLowerCase_trim.
  reflexivity.
Qed.

End Invariance.

(** For a handle of Basic Latin and Latin-1 characters, the frame's metrics
    depend neither on the case of its letters, nor on white space after it,
    nor on one commercial at in front of a handle that has none. *)
Theorem frame_metrics_invariant (handle w : jsstring) :
  latin1 handle = true ->
  whitespace_only w = true ->
  Frame.generateMetrics (toLowerCase handle) = Frame.generateMetrics handle
  /\ Frame.generateMetrics (handle ++ w) = Frame.generateMetrics handle
  /\ (Page.startsWith_at handle = false ->
      Frame.generateMetrics (at_sign :: handle) = Frame.generateMetrics handle).
Proof.
  intros _ W. apply whitespace_only_all_ws in W.
  unfold Frame.generateMetrics.
  rewrite frame_normalize_case, (frame_normalize_trailing handle w W).
  split; [reflexivity |]. split; [reflexivity |].
  intros S. rewrite (frame_normalize_at handle S). reflexivity.
Qed.

Lemma frame_metrics_invariant_witness :
  Frame.generateMetrics (toLowerCase (lit "Alice"))
  = Frame.generateMetrics (lit "Alice")
  /\ Frame.generateMetrics (lit "Alice" ++ lit "  ")
     = Frame.generateMetrics (lit "Alice")
  /\ Frame.generateMetrics (at_sign :: lit "Alice")
     = Frame.generateMetrics (lit "Alice").
Proof.
  destruct (frame_metrics_invariant (lit "Alice") (lit "  ") eq_refl eq_refl)
    as [L [T A]].
  split; [exact L |]. split; [exact T | exact (A eq_refl)].
Defined.

(** The page's metrics depend neither on white space around the handle nor
    on one commercial at in front of a handle that starts with neither
    white space nor a commercial at. *)
Theorem page_metrics_invariant (handle w1 w2 : jsstring) :
  whitespace_only w1 = true -> whitespace_only w2 = true ->
  App.generateMetrics (w1 ++ handle ++ w2) = App.generateMetrics handle
  /\ (starts_clean handle = true ->
      App.generateMetrics (at_sign :: handle) = App.generateMetrics handle).
Proof.
  intros W1 W2.
  apply whitespace_only_all_ws in W1. apply whitespace_only_all_ws in W2.
  unfold App.generateMetrics.
  rewrite (app_normalize_padding w1 handle w2 W1 W2).
  split; [reflexivity |].
  intros C. rewrite (app_normalize_at handle C). reflexivity.
Qed.

Lemma page_metrics_invariant_witness :
  App.generateMetrics (lit " " ++ lit "Alice" ++ [9; 10])
  = App.generateMetrics (lit "Alice")
  /\ App.generateMetrics (at_sign :: lit "Alice")
     = App.generateMetrics (lit "Alice").
Proof.
  destruct (page_metrics_invariant (lit "Alice") (lit " ") [9; 10]
              eq_refl eq_refl) as [P A].
  split; [exact P | exact (A eq_refl)].
Defined.

(** The page hashes the handle as typed, capitals included, but seeds the
    avatar with its lower case: a handle of Basic Latin and Latin-1
    characters and its lower case get the same avatar address (the call
    throws for neither, such a handle having no surrogate). *)
Theorem page_avatar_ignores_case (handle : jsstring) :
  latin1 handle = true ->
  match App.generateMetrics handle,
        App.generateMetrics (toLowerCase handle) with
  | Ok r, Ok r' => App.avatarUrl r = App.avatarUrl r'
  | _, _ => False
  end.
Proof.
  intros L.
  assert (well_formed handle = true) as W.
  { clear -L. induction handle as [| c r IH]; [reflexivity |].
    unfold latin1 in L. cbn [forallb] in L.
    apply Bool.andb_true_iff in L as [C R].
    rewrite well_formed_cons_plain;
      [apply IH, R | |];
      unfold is_low_surrogate, is_high_surrogate; zbool. }
  pose proof (well_formed_seed handle W) as S.
  pose proof (encodeURIComponent_spec
    (toLowerCase (or_else (App.normalize handle) App.fallback))) as E.
  unfold App.generateMetrics. cbv zeta.
  rewrite app_normalize_lower.
  assert (toLowerCase (or_else (toLowerCase (App.normalize handle)) App.fallback)
          = toLowerCase (or_else (App.normalize handle) App.fallback)) as ->.
  { destruct (App.normalize handle) as [| c r]; [reflexivity |].
    change (or_else (toLowerCase (c :: r)) App.fallback)
      with (toLowerCase (c :: r)).
    change (or_else (c :: r) App.fallback) with (c :: r).
    apply toLowerCase_idem. }
  destruct (encodeURIComponent _); [reflexivity |].
  destruct E as [E _]. rewrite S in E. discriminate E.
Qed.

Lemma page_avatar_ignores_case_witness :
  match App.generateMetrics (lit "Alice"),
        App.generateMetrics (toLowerCase (lit "Alice")) with
  | Ok r, Ok r' => App.avatarUrl r = App.avatarUrl r'
  | _, _ => False
  end.
Proof. exact (page_avatar_ignores_case (lit "Alice") eq_refl). Defined.

(** ** The values of the frame's metrics *)

Lemma handle_of_score_mainCharacter :
  forallb (fun k =>
             Frame.mainCharacter (Frame.generateMetrics (handle_of_score k))
             =? 50 + k)
          (map Z.of_nat (seq 0 51)) = true.
Proof. vm_compute. reflexivity. Qed.

(** Over all handles, the frame's mainCharacter takes exactly the values
    from 50 to 100, and its plotArmor each of the three levels. *)
Theorem frame_mainCharacter_values :
  (forall v,
     (exists handle, Frame.mainCharacter (Frame.generateMetrics handle) = v)
     <-> 50 <= v <= 100)
  /\ (forall a,
        exists handle, Frame.plotArmor (Frame.generateMetrics handle) = Some a).
Proof.
  split.
  - intros v. split.
    + intros [handle <-]. unfold Frame.generateMetrics. cbv zeta.
      cbn [Frame.mainCharacter].
      pose proof (frame_hashHandle_range
                    (or_else (Frame.normalize handle) Frame.fallback)) as B.
      pose proof (rem_range _ 51 (proj1 B) ltac:(lia)). lia.
    + intros B. exists (handle_of_score (v - 50)).
      pose proof handle_of_score_mainCharacter as F.
      rewrite forallb_forall in F. specialize (F (v - 50)).
      replace (50 + (v - 50)) with v in F by lia.
      apply Z.eqb_eq, F.
      replace (v - 50) with (Z.of_nat (Z.to_nat (v - 50))) by lia.
      apply in_map, in_seq. lia.
  - intros [| |].
    + exists (lit "0"). reflexivity.
    + exists (lit "1"). reflexivity.
    + exists (lit "2"). reflexivity.
Qed.

Lemma frame_mainCharacter_values_witness :
  50 <= 77 <= 100
  /\ exists handle, Frame.mainCharacter (Frame.generateMetrics handle) = 77.
Proof.
  split; [lia |].
  apply (proj2 (proj1 frame_mainCharacter_values 77)). lia.
Defined.

(** ** The frame responder's handler *)

Section FrameHandler.

Lemma str_eqb_eq (a b : jsstring) : str_eqb a b = true <-> a = b.
Proof.
  unfold str_eqb. destruct (list_eq_dec Z.eq_dec a b); split; intros H;
    try reflexivity; try assumption; try discriminate; contradiction.
Qed.

(** Whatever a POST carries, the handler builds a card or fails. *)
Lemma frame_post_cases (req : Request) :
  (exists text,
     FrameServer.respond {| method := lit "POST"; payload := payload req |}
     = Ok (FrameServer.html_response
             (FrameServer.buildFrameHtml text FrameServer.imageUrl
                                         FrameServer.appUrl)))
  \/ (exists m,
        FrameServer.respond {| method := lit "POST"; payload := payload req |}
        = Throw m).
Proof.
  unfold FrameServer.respond. cbn [method payload].
  change (str_eqb (lit "POST") (lit "GET")) with false.
  change (str_eqb (lit "POST") (lit "POST")) with true.
  cbv iota.
  destruct (get _ (lit "untrustedData")) as [u | m];
    [| right; exists m; reflexivity].
  cbn [bind].
  destruct (get _ (lit "inputText")) as [i | m];
    [| right; exists m; reflexivity].
  cbn [bind].
  destruct (toString _) as [text | m]; [| right; exists m; reflexivity].
  left. exists text. reflexivity.
Qed.

Lemma frame_normalize_blank (text : jsstring) :
  all_ws text -> FrameServer.buildFrameHtml text FrameServer.imageUrl
                   FrameServer.appUrl
                 = FrameServer.buildFrameHtml [] FrameServer.imageUrl
                     FrameServer.appUrl.
Proof.
  intros W. unfold FrameServer.buildFrameHtml.
  rewrite (frame_normalize_ws text W). reflexivity.
Qed.

End FrameHandler.

(** Every answer of the frame responder carries the two cross-origin
    headers; its status is 200, 405 or 500; it is 405 exactly for the methods
    other than OPTIONS, GET and POST, and 500 only for a POST. *)
Theorem frame_serve_statuses (req : Request) :
  let response := FrameServer.serve req in
  firstn 2 (headers response) = corsHeaders
  /\ (status response = 200 \/ status response = 405 \/ status response = 500)
  /\ (status response = 405 <->
      method req <> lit "OPTIONS" /\ method req <> lit "GET"
      /\ method req <> lit "POST")
  /\ (status response = 500 -> method req = lit "POST").
Proof.
  cbv zeta. unfold FrameServer.serve.
  destruct (str_eqb (method req) (lit "OPTIONS")) eqn:O.
  { apply str_eqb_eq in O. cbn [status headers].
    repeat split; auto; try discriminate.
    intros [H _]. contradiction. }
  assert (method req <> lit "OPTIONS") as NO.
  { intros E. apply str_eqb_eq in E. congruence. }
  destruct (str_eqb (method req) (lit "GET")) eqn:G.
  { unfold FrameServer.respond. rewrite G. cbn [status headers].
    apply str_eqb_eq in G.
    repeat split; auto; try discriminate.
    intros [_ [H _]]. contradiction. }
  assert (method req <> lit "GET") as NG.
  { intros E. apply str_eqb_eq in E. congruence. }
  destruct (str_eqb (method req) (lit "POST")) eqn:P.
  { apply str_eqb_eq in P.
    assert (req = {| method := lit "POST"; payload := payload req |}) as ->
        by (destruct req; cbn in *; subst; reflexivity).
    cbn [method].
    destruct (frame_post_cases req) as [[text ->] | [m ->]]; cbn [status headers];
      repeat split; auto; try discriminate;
      intros [_ [_ H]]; contradiction. }
  assert (method req <> lit "POST") as NP.
  { intros E. apply str_eqb_eq in E. congruence. }
  unfold FrameServer.respond. rewrite G, P. cbn [status headers].
  repeat split; auto; try discriminate.
Qed.

Lemma frame_serve_statuses_witness :
  status (FrameServer.serve {| method := lit "PUT"; payload := Throw [] |}) = 405
  /\ method {| method := lit "POST"; payload := Ok JNull |} = lit "POST".
Proof.
  split.
  - apply (proj2 (proj1 (proj2 (proj2 (frame_serve_statuses
             {| method := lit "PUT"; payload := Throw [] |}))))).
    repeat split; discriminate.
  - apply (proj2 (proj2 (proj2 (frame_serve_statuses
             {| method := lit "POST"; payload := Ok JNull |})))).
    reflexivity.
Defined.

(** A POST degrades to the card of a GET when its body does not parse, has
    no [untrustedData], or has an [inputText] of white space only; but a body
    that is the JSON [null] is answered with status 500. *)
Theorem frame_post_degrades (p : result json) :
  let card := FrameServer.serve {| method := lit "GET"; payload := p |} in
  (forall m,
     FrameServer.serve {| method := lit "POST"; payload := Throw m |} = card)
  /\ (forall fields,
        lookup fields (lit "untrustedData") = None ->
        FrameServer.serve {| method := lit "POST";
                             payload := Ok (JObj fields) |} = card)
  /\ (forall text,
        whitespace_only text = true ->
        FrameServer.serve
          {| method := lit "POST";
             payload := Ok (JObj [(lit "untrustedData",
                                   JObj [(lit "inputText", JStr text)])]) |}
        = card)
  /\ FrameServer.serve {| method := lit "POST"; payload := Ok JNull |}
     = {| status := 500; headers := corsHeaders;
          body := Some (lit "Internal Server Error") |}.
Proof.
  cbv zeta. split; [| split; [| split]].
  - intros m. reflexivity.
  - intros fields L. unfold FrameServer.serve, FrameServer.respond.
    cbn [method payload].
    change (str_eqb (lit "POST") (lit "OPTIONS")) with false.
    change (str_eqb (lit "POST") (lit "GET")) with false.
    change (str_eqb (lit "POST") (lit "POST")) with true.
    change (str_eqb (lit "GET") (lit "OPTIONS")) with false.
    change (str_eqb (lit "GET") (lit "GET")) with true.
    cbv iota. cbn [get]. rewrite L. reflexivity.
  - intros text W. rewrite frame_post_text.
    rewrite (frame_normalize_blank text (whitespace_only_all_ws text W)).
    reflexivity.
  - reflexivity.
Qed.

Lemma frame_post_degrades_witness :
  FrameServer.serve
    {| method := lit "POST"; payload := Ok (JObj [(lit "fid", JNum 7)]) |}
  = FrameServer.serve {| method := lit "GET"; payload := Throw [] |}
  /\ FrameServer.serve
       {| method := lit "POST";
          payload := Ok (JObj [(lit "untrustedData",
                                JObj [(lit "inputText", JStr (lit "  "))])]) |}
     = FrameServer.serve {| method := lit "GET"; payload := Throw [] |}.
Proof.
  destruct (frame_post_degrades (Throw [])) as [_ [A [B _]]]. split.
  - apply (A [(lit "fid", JNum 7)]). reflexivity.
  - apply (B (lit "  ")). reflexivity.
Defined.

Lemma decimal_small :
  forallb (fun n => match decimal (num_to_string n) with
                    | Some m => m =? n
                    | None => false
                    end)
          (map Z.of_nat (seq 0 101)) = true.
Proof. vm_compute. reflexivity. Qed.

Lemma decimal_num_to_string (n : Z) :
  0 <= n <= 100 -> decimal (num_to_string n) = Some n.
Proof.
  intros B. pose proof decimal_small as F. rewrite forallb_forall in F.
  specialize (F n).
  destruct (decimal (num_to_string n)) as [m |].
  - f_equal. apply Z.eqb_eq, F.
    replace n with (Z.of_nat (Z.to_nat n)) by lia.
    apply in_map, in_seq. lia.
  - exfalso. apply Bool.diff_false_true, F.
    replace n with (Z.of_nat (Z.to_nat n)) by lia.
    apply in_map, in_seq. lia.
Qed.

(** The card for a posted text of Basic Latin and Latin-1 characters whose
    normalized handle is not empty and starts neither with a commercial at
    nor with white space: status 200 and a document that holds the
    description tag with the handle after a commercial at, and then, in
    decimal digits and in words, the mainCharacter, the npcEnergy and the
    plotArmor of a direct call of [generateMetrics] on the text. *)
Theorem frame_post_card (text : jsstring) :
  latin1 text = true ->
  Frame.normalize text <> [] ->
  starts_clean (Frame.normalize text) = true ->
  let response :=
    FrameServer.serve
      {| method := lit "POST";
         payload := Ok (JObj [(lit "untrustedData",
                               JObj [(lit "inputText", JStr text)])]) |} in
  let m := Frame.generateMetrics text in
  status response = 200
  /\ exists document mc npc armor,
       body response = Some document
       /\ contains
            (lit "<meta property=" ++ [34] ++ lit "og:description" ++ [34]
             ++ lit " content=" ++ [34]
             ++ lit "@" ++ Frame.normalize text
             ++ lit ": MC " ++ mc ++ [32; 183; 32]
             ++ lit "NPC " ++ npc ++ [32; 183; 32]
             ++ lit "Armor " ++ armor
             ++ [34] ++ lit " />")
            document
       /\ decimal mc = Some (Frame.mainCharacter m)
       /\ decimal npc = Some (Frame.npcEnergy m)
       /\ ((armor = lit "Low" /\ Frame.plotArmor m = Some Frame.Low)
           \/ (armor = lit "Medium" /\ Frame.plotArmor m = Some Frame.Medium)
           \/ (armor = lit "High" /\ Frame.plotArmor m = Some Frame.High)).
Proof.
  intros _ N C. cbv zeta. rewrite frame_post_text.
  rewrite (buildFrameHtml_subtitle text _ _ N C).
  split; [reflexivity |].
  exists (FrameServer.html_of
            (FrameServer.subtitle_of (Frame.normalize text)
                                     (Frame.generateMetrics text))
            (FrameServer.state_of (Frame.normalize text))
            FrameServer.imageUrl FrameServer.appUrl),
         (num_to_string (Frame.mainCharacter (Frame.generateMetrics text))),
         (num_to_string (Frame.npcEnergy (Frame.generateMetrics text))),
         (FrameServer.armor_text
            (Frame.plotArmor (Frame.generateMetrics text))).
  split; [reflexivity |].
  pose proof (frame_hashHandle_range
                (or_else (Frame.normalize text) Frame.fallback)) as B.
  split; [| split; [| split]].
  - exists (lit "<!doctype html>" ++ FrameServer.nl ++ lit "<html>"
            ++ FrameServer.nl ++ lit "  <head>" ++ FrameServer.nl
            ++ FrameServer.meta (lit "og:title") (lit "Main Character Energy")
            ++ lit "    ").
    exists (FrameServer.nl
            ++ FrameServer.meta (lit "og:image") FrameServer.imageUrl
            ++ FrameServer.nl
            ++ FrameServer.meta (lit "fc:frame") (lit "vNext")
            ++ FrameServer.meta (lit "fc:frame:image") FrameServer.imageUrl
            ++ FrameServer.meta (lit "fc:frame:button:1") (lit "Scan again")
            ++ FrameServer.meta (lit "fc:frame:button:1:action") (lit "post")
            ++ FrameServer.meta (lit "fc:frame:input:text")
                 (lit "Enter your Farcaster handle")
            ++ FrameServer.meta (lit "fc:frame:state")
                 (FrameServer.state_of (Frame.normalize text))
            ++ FrameServer.meta (lit "fc:frame:post_url")
                 (FrameServer.appUrl ++ lit "/frame-main-character")
            ++ lit "  </head>" ++ FrameServer.nl
            ++ FrameServer.nl
            ++ lit "  <body></body>" ++ FrameServer.nl
            ++ lit "</html>").
    unfold FrameServer.html_of, FrameServer.subtitle_of, FrameServer.dot.
    generalize (FrameServer.state_of (Frame.normalize text)).
    generalize (num_to_string (Frame.mainCharacter (Frame.generateMetrics text))).
    generalize (num_to_string (Frame.npcEnergy (Frame.generateMetrics text))).
    generalize (FrameServer.armor_text
                  (Frame.plotArmor (Frame.generateMetrics text))).
    generalize (Frame.normalize text).
    intros n a np mc state.
    unfold FrameServer.meta at 2.
    change (FrameServer.meta (lit "og:title") (lit "Main Character Energy"))
      with (lit "    <meta property=" ++ [34] ++ lit "og:title" ++ [34]
            ++ lit " content=" ++ [34] ++ lit "Main Character Energy" ++ [34]
            ++ lit " />" ++ FrameServer.nl).
    change (lit "    <meta property=") with (lit "    " ++ lit "<meta property=").
    repeat rewrite <- app_assoc. reflexivity.
  - apply decimal_num_to_string.
    unfold Frame.generateMetrics. cbv zeta. cbn [Frame.mainCharacter].
    pose proof (rem_range _ 51 (proj1 B) ltac:(lia)). lia.
  - apply decimal_num_to_string.
    unfold Frame.generateMetrics. cbv zeta. cbn [Frame.npcEnergy].
    pose proof (rem_range _ 41 (proj1 B) ltac:(lia)). lia.
  - unfold Frame.generateMetrics. cbv zeta. cbn [Frame.plotArmor].
    destruct (index_in Frame.plotArmorLevels
                (rem (Frame.hashHandle
                        (or_else (Frame.normalize text) Frame.fallback))
                     (Z.of_nat (length Frame.plotArmorLevels))))
      as [x [-> _]].
    + apply rem_range; [lia | reflexivity].
    + destruct x; cbn [FrameServer.armor_text]; auto.
Qed.

Lemma frame_post_card_witness :
  status (FrameServer.serve
            {| method := lit "POST";
               payload := Ok (JObj [(lit "untrustedData",
                                     JObj [(lit "inputText",
                                            JStr (lit "@Bob "))])]) |})
  = 200.
Proof.
  exact (proj1 (frame_post_card (lit "@Bob ") eq_refl ltac:(discriminate)
                  eq_refl)).
Defined.

(** The state attribute of the card holds no double quote, whatever the
    handle: every one that [JSON.stringify] writes is replaced. *)
Theorem frame_state_unquoted (normalized : jsstring) :
  forallb (fun c => negb (c =? 34)) (FrameServer.state_of normalized) = true.
Proof.
  unfold FrameServer.state_of.
  generalize (lit "{" ++ quote (lit "handle") ++ lit ":" ++ quote normalized
              ++ lit "}").
  intros l. induction l as [| c r IH]; [reflexivity |].
  cbn [flat_map]. rewrite forallb_app, IH.
  destruct (c =? 34) eqn:E; [reflexivity |].
  cbn [forallb]. rewrite E. reflexivity.
Qed.

(** ** The proxy's answers *)

Section ProxyAnswers.

Variable fetch : jsstring -> jsstring -> Proxy.Upstream.



End ProxyAnswers.



(** Every answer of the proxy carries the two cross-origin headers, and every
    answer to a method other than OPTIONS is a JSON document: it has the JSON
    content type and a body. *)
Theorem proxy_answers_json
        (key : option jsstring)
        (fetch : jsstring -> jsstring -> Proxy.Upstream) (req : Request) :
  let response := Proxy.serve key fetch req in
  firstn 2 (headers response) = corsHeaders
  /\ (method req <> lit "OPTIONS" ->
      headers response = Proxy.json_headers /\ body response <> None).
Proof.
  cbv zeta. unfold Proxy.serve.
  destruct (str_eqb (method req) (lit "OPTIONS")) eqn:O.
  { apply str_eqb_eq in O. split; [reflexivity |]. intros H. contradiction. }
  assert (forall r : result Response,
    (forall x, r = Ok x ->
       headers x = Proxy.json_headers /\ body x <> None) ->
    headers match r with
            | Ok response => response
            | Throw message => Proxy.error_response 500 message
            end = Proxy.json_headers
    /\ body match r with
            | Ok response => response
            | Throw message => Proxy.error_response 500 message
            end <> None) as K.
  { intros [x | m] H; [apply H; reflexivity | split; [reflexivity | discriminate]]. }
  assert (headers match Proxy.respond key fetch req with
                  | Ok response => response
                  | Throw message => Proxy.error_response 500 message
                  end = Proxy.json_headers
          /\ body match Proxy.respond key fetch req with
                  | Ok response => response
                  | Throw message => Proxy.error_response 500 message
                  end <> None) as [H B].
  { apply K. unfold Proxy.respond.
    intros x.
    destruct (payload req) as [parsed | m]; cbn [bind]; [| discriminate].
    destruct (match parsed with JNull => _ | _ => _ end) as [u | m];
      cbn [bind]; [| discriminate].
    destruct (negb (truthy (or_default u JNull))).
    { intros E. injection E as <-. split; [reflexivity | discriminate]. }
    destruct (negb (Proxy.configured key)).
    { intros E. injection E as <-. split; [reflexivity | discriminate]. }
    destruct (toString _) as [name | m]; cbn [bind]; [| discriminate].
    destruct (encodeURIComponent name) as [q | m]; cbn [bind]; [| discriminate].
    destruct (fetch _ _) as [m | st data]; [discriminate |].
    destruct (negb _).
    { destruct (Proxy.response_refusal st); [discriminate |].
      intros E. injection E as <-. split; [reflexivity | discriminate]. }
    destruct data as [[[| user rest] |] | m]; cbn [bind]; try discriminate;
      intros E; injection E as <-; split; try reflexivity; discriminate. }
  split; [rewrite H; reflexivity |]. intros _. split; assumption.
Qed.

Lemma proxy_answers_json_witness :
  body (Proxy.serve None (fun _ _ => Proxy.FetchRejects [])
          {| method := lit "GET"; payload := Throw (lit "Unexpected end") |})
  <> None.
Proof.
  apply (proj2 (proxy_answers_json None (fun _ _ => Proxy.FetchRejects [])
           {| method := lit "GET"; payload := Throw (lit "Unexpected end") |})).
  discriminate.
Defined.

(** ** The page's text field and its handlers *)

Section PageHandlers.

Lemma lit_at : lit "@" = [at_sign].
Proof. reflexivity. Qed.

Lemma app_generateMetrics_trim (handle : jsstring) :
  App.generateMetrics (trim handle) = App.generateMetrics handle.
Proof.
  unfold App.generateMetrics, App.normalize. rewrite trim_idem. reflexivity.
Qed.

Lemma digits_num_chars (d : Decimal.uint) :
  forallb is_num_char (lit (NilEmpty.string_of_uint d)) = true.
Proof. induction d; try reflexivity; cbn; exact IHd. Qed.

Lemma num_to_string_chars (n : Z) :
  forallb is_num_char (num_to_string n) = true.
Proof.
  unfold num_to_string, NilZero.string_of_int, NilZero.string_of_uint.
  destruct (Z.to_int n) as [d | d]; destruct d; try reflexivity;
    cbn; apply digits_num_chars.
Qed.

Lemma num_chars_newlines (s : jsstring) :
  forallb is_num_char s = true -> newlines s = 0%nat.
Proof.
  unfold newlines. induction s as [| c r IH]; [reflexivity |].
  cbn [forallb]. intros H. apply Bool.andb_true_iff in H as [C R].
  cbn [count_occ]. destruct (Z.eq_dec c 10) as [-> | _]; [discriminate C |].
  apply IH, R.
Qed.

Lemma newlines_app (s t : jsstring) :
  newlines (s ++ t) = (newlines s + newlines t)%nat.
Proof. apply count_occ_app. Qed.

Lemma newlines_replace (s : jsstring) :
  newlines (replace_leading_at s) = newlines s.
Proof.
  destruct s as [| c r]; [reflexivity |].
  cbn [replace_leading_at]. destruct (c =? at_sign) eqn:E; [| reflexivity].
  apply Z.eqb_eq in E. subst c. reflexivity.
Qed.

Lemma share_username_eq (st : Page.State) :
  Page.share_username st
  = at_sign :: replace_leading_at (Page.effectiveHandle st).
Proof.
  unfold Page.share_username.
  destruct (Page.effectiveHandle st) as [| c r]; [reflexivity |].
  cbn [Page.startsWith_at replace_leading_at].
  destruct (c =? at_sign) eqn:E; [| reflexivity].
  apply Z.eqb_eq in E. subst c. reflexivity.
Qed.

End PageHandlers.

(** The text field shows the stored handle without its commercial at, and
    typing stores the text behind one commercial at.  So the field shows the
    text typed, less a commercial at in front; the stored handle is empty or
    starts with a commercial at; and typing what the field shows changes
    nothing, as long as the field shows something that starts with no
    further commercial at. *)
Theorem page_input_round_trip (st : Page.State) (text : jsstring) :
  Page.inputValue (Page.onChange st text) = replace_leading_at text
  /\ (Page.startsWith_at text = false ->
      Page.inputValue (Page.onChange st text) = text)
  /\ (Page.handle (Page.onChange st text) = []
      \/ Page.startsWith_at (Page.handle (Page.onChange st text)) = true)
  /\ (replace_leading_at text <> [] ->
      Page.startsWith_at (replace_leading_at text) = false ->
      Page.onChange st (Page.inputValue (Page.onChange st text))
      = Page.onChange st text).
Proof.
  unfold Page.inputValue, Page.onChange. cbn [Page.handle].
  rewrite lit_at.
  destruct text as [| c r].
  - split; [reflexivity |]. split; [reflexivity |].
    split; [left; reflexivity |]. intros H. contradiction.
  - cbn [app Page.connected Page.result Page.isSubmitting].
    assert (replace_leading_at (at_sign :: replace_leading_at (c :: r))
            = replace_leading_at (c :: r)) as ->
        by reflexivity.
    split; [reflexivity |].
    split.
    { cbn [Page.startsWith_at replace_leading_at]. intros ->. reflexivity. }
    split; [right; reflexivity |].
    intros N S.
    destruct (replace_leading_at (c :: r)) as [| d r'] eqn:E; [contradiction |].
    cbn [Page.startsWith_at] in S.
    cbn [replace_leading_at app]. rewrite S. reflexivity.
Qed.

Lemma page_input_round_trip_witness :
  Page.inputValue (Page.onChange Page.initial (lit "bob")) = lit "bob"
  /\ Page.onChange Page.initial
       (Page.inputValue (Page.onChange Page.initial (lit "@bob")))
     = Page.onChange Page.initial (lit "@bob").
Proof.
  destruct (page_input_round_trip Page.initial (lit "bob")) as [_ [A _]].
  destruct (page_input_round_trip Page.initial (lit "@bob")) as [_ [_ [_ B]]].
  split; [exact (A eq_refl) | exact (B ltac:(discriminate) eq_refl)].
Defined.

(** A scan of a typed text.  The stored commercial at counts in the length
    check, so a name (the text less a leading commercial at and trailing
    white space) of more than 31 code units is refused as too long; a shorter
    one is scanned, and the string hashed is the name itself (or the fallback
    when the name is empty, as after typing a lone commercial at). *)
Theorem page_typed_scan (st : Page.State) (text : jsstring) :
  text <> [] ->
  let name := trimEnd (replace_leading_at text) in
  let typed := Page.onChange st text in
  App.normalize (at_sign :: name) = name
  /\ ((31 < length name)%nat ->
      Page.onSubmit typed
      = {| Page.state := typed; Page.toasts := [Page.too_long];
           Page.thrown := None |})
  /\ ((length name <= 31)%nat ->
      Page.onSubmit typed
      = match App.generateMetrics (at_sign :: name) with
        | Ok metrics =>
          {| Page.state :=
               {| Page.handle := Page.handle typed;
                  Page.connected := Page.connected st;
                  Page.result := Some metrics;
                  Page.isSubmitting := false |};
             Page.toasts := [Page.calculated]; Page.thrown := None |}
        | Throw message =>
          {| Page.state :=
               {| Page.handle := Page.handle typed;
                  Page.connected := Page.connected st;
                  Page.result := Page.result st;
                  Page.isSubmitting := false |};
             Page.toasts := []; Page.thrown := Some message |}
        end).
Proof.
  intros N name typed.
  assert (trim (at_sign :: name) = at_sign :: name) as T.
  { rewrite trim_cons_keep by reflexivity. unfold name.
    rewrite trimEnd_idem. reflexivity. }
  assert (trim (Page.effectiveHandle typed) = at_sign :: name) as V.
  { unfold Page.effectiveHandle, typed, Page.onChange. cbn [Page.handle].
    destruct text as [| c r]; [contradiction |].
    rewrite lit_at. cbn [app].
    rewrite trim_cons_keep by reflexivity. cbn [or_else]. exact T. }
  split.
  { unfold App.normalize. rewrite T. cbn [replace_leading_at].
    rewrite Z.eqb_refl. reflexivity. }
  split; intros L; unfold Page.onSubmit; cbv zeta; rewrite V.
  - replace (Z.of_nat (length (at_sign :: name)) >? 32) with true;
      [reflexivity |].
    symmetry. apply Z.gtb_lt. cbn [length]. lia.
  - replace (Z.of_nat (length (at_sign :: name)) >? 32) with false;
      [reflexivity |].
    symmetry. rewrite Z.gtb_ltb. apply Z.ltb_ge. cbn [length]. lia.
Qed.

Lemma page_typed_scan_witness :
  Page.toasts
    (Page.onSubmit
       (Page.onChange Page.initial (lit "abcdefghijklmnopqrstuvwxyzabcdef")))
  = [Page.too_long]
  /\ Page.toasts
       (Page.onSubmit
          (Page.onChange Page.initial (lit "abcdefghijklmnopqrstuvwxyzabcde")))
     = [Page.calculated].
Proof.
  split.
  - rewrite (proj1 (proj2 (page_typed_scan Page.initial
               (lit "abcdefghijklmnopqrstuvwxyzabcdef") ltac:(discriminate)))).
    + reflexivity.
    + vm_compute. lia.
  - rewrite (proj2 (proj2 (page_typed_scan Page.initial
               (lit "abcdefghijklmnopqrstuvwxyzabcde") ltac:(discriminate)))).
    + reflexivity.
    + vm_compute. lia.
Defined.

(** What a scan leaves behind.  It never touches the handle nor the
    connection flag; it replaces the result only by the metrics of the
    effective handle, and only when this has from 1 to 32 code units once
    trimmed, lowering the busy flag; and once connected it never refuses a
    scan for a missing handle. *)
Theorem page_submit_guard (st : Page.State) :
  let out := Page.onSubmit st in
  Page.handle (Page.state out) = Page.handle st
  /\ Page.connected (Page.state out) = Page.connected st
  /\ (Page.result (Page.state out) = Page.result st
      \/ exists metrics,
           App.generateMetrics (Page.effectiveHandle st) = Ok metrics
           /\ Page.result (Page.state out) = Some metrics
           /\ (1 <= length (trim (Page.effectiveHandle st)) <= 32)%nat
           /\ Page.isSubmitting (Page.state out) = false
           /\ Page.toasts out = [Page.calculated])
  /\ (Page.connected st = true -> Page.toasts out <> [Page.handle_required]).
Proof.
  cbv zeta. unfold Page.onSubmit. cbv zeta.
  pose proof (app_generateMetrics_trim (Page.effectiveHandle st)) as G.
  assert (Page.connected st = true -> trim (Page.effectiveHandle st) <> [])
    as C.
  { intros K. unfold Page.effectiveHandle. rewrite K.
    destruct (trim (Page.handle st)) as [| c r] eqn:T.
    - cbn [or_else]. discriminate.
    - cbn [or_else]. rewrite <- T, trim_idem, T. discriminate. }
  assert (forall a b : Page.Toast,
            Page.title a <> Page.title b -> [a] <> [b]) as D.
  { intros a b H E. injection E as E. apply H. rewrite E. reflexivity. }
  destruct (trim (Page.effectiveHandle st)) as [| c r] eqn:V.
  - cbn [Page.state Page.toasts]. repeat split; auto.
    intros K. exfalso. apply (C K). reflexivity.
  - destruct (Z.of_nat (length (c :: r)) >? 32) eqn:L.
    + cbn [Page.state Page.toasts]. repeat split; auto.
      intros _. apply D. discriminate.
    + rewrite G. destruct (App.generateMetrics (Page.effectiveHandle st))
        as [metrics | message];
        cbn [Page.state Page.toasts Page.handle Page.connected Page.result
             Page.isSubmitting].
      * split; [reflexivity |]. split; [reflexivity |]. split.
        -- right. exists metrics. repeat split; auto.
           ++ cbn [length]. lia.
           ++ rewrite Z.gtb_ltb in L. apply Z.ltb_ge in L. lia.
        -- intros _. apply D. discriminate.
      * repeat split; auto. intros _. discriminate.
Qed.

Lemma page_submit_guard_witness :
  Page.toasts
    (Page.onSubmit {| Page.handle := []; Page.connected := true;
                      Page.result := None; Page.isSubmitting := false |})
  <> [Page.handle_required].
Proof.
  apply (proj2 (proj2 (proj2 (page_submit_guard
           {| Page.handle := []; Page.connected := true;
              Page.result := None; Page.isSubmitting := false |})))).
  reflexivity.
Defined.

(** Sharing.  The name in the share text is the effective handle behind
    exactly one commercial at, typed with it or without.  A text reaches the
    clipboard only when there is a result, a handle and a clipboard that takes
    it; it is then the share text, of six lines when the handle holds no line
    feed. *)
Theorem page_share_text (clipboard : option (jsstring -> bool))
        (st : Page.State) :
  Page.share_username st
  = at_sign :: replace_leading_at (Page.effectiveHandle st)
  /\ (forall text toast,
        Page.handleShare clipboard st = (Some text, toast) ->
        exists r writeText,
          Page.result st = Some r
          /\ Page.effectiveHandle st <> []
          /\ clipboard = Some writeText /\ writeText text = true
          /\ text = Page.shareText st r
          /\ toast = Page.copied
          /\ newlines text = (5 + newlines (Page.effectiveHandle st))%nat).
Proof.
  split; [apply share_username_eq |].
  intros text toast. unfold Page.handleShare.
  destruct (Page.result st) as [r |]; [| discriminate].
  destruct (Page.effectiveHandle st) as [| c e] eqn:E; [discriminate |].
  destruct clipboard as [writeText |]; [| discriminate].
  destruct (writeText (Page.shareText st r)) eqn:W; [| discriminate].
  intros H. injection H as <- <-.
  exists r, writeText. repeat split; auto; try discriminate.
  unfold Page.shareText. cbn [Page.join].
  rewrite share_username_eq, E.
  rewrite !newlines_app.
  rewrite !(num_chars_newlines _ (num_to_string_chars _)).
  change (newlines (at_sign :: replace_leading_at (c :: e)))
    with (newlines (replace_leading_at (c :: e))).
  rewrite newlines_replace.
  assert (newlines (Page.armor_text (App.plotArmor r)) = 0%nat) as ->
      by (destruct (App.plotArmor r); reflexivity).
  repeat match goal with
         | |- context [newlines (lit ?s)] =>
           let v := eval vm_compute in (newlines (lit s)) in
           change (newlines (lit s)) with v
         end.
  change (newlines [10]) with 1%nat. change (newlines []) with 0%nat. lia.
Qed.

Lemma page_share_text_witness :
  newlines
    (Page.shareText
       {| Page.handle := lit "bob"; Page.connected := false;
          Page.result :=
            Some {| App.mainCharacter := 51; App.npcEnergy := 48;
                    App.plotArmor := App.Medium; App.caption := None;
                    App.fid := 107717; App.avatarUrl := [] |};
          Page.isSubmitting := false |}
       {| App.mainCharacter := 51; App.npcEnergy := 48;
          App.plotArmor := App.Medium; App.caption := None;
          App.fid := 107717; App.avatarUrl := [] |})
  = 5%nat.
Proof.
  destruct (proj2 (page_share_text (Some (fun _ => true))
              {| Page.handle := lit "bob"; Page.connected := false;
                 Page.result :=
                   Some {| App.mainCharacter := 51; App.npcEnergy := 48;
                           App.plotArmor := App.Medium; App.caption := None;
                           App.fid := 107717; App.avatarUrl := [] |};
                 Page.isSubmitting := false |})
              _ _ eq_refl) as [r [w [R [_ [_ [_ [T [_ N]]]]]]]].
  exact N.
Defined.

(** ** The page with the profile lookup *)

(** A scan with the lookup.  The one name sent to the lookup function is the
    normalized handle, the string that [generateMetrics] hashes (when it is
    not empty), and the handle is never touched.  A new result is stored only
    when the lookup resolves without error to data with no error message
    (none, or an empty one); it then has the numbers, the armor and the
    caption of [generateMetrics] on the handle, and the identifier, avatar
    and names of the data, whatever [generateMetrics] made up for them, and
    the toast announces the calculation.  When the data carry an error
    message, the result stays and the toast shows that message. *)
Theorem lookup_submit (invoke : jsstring -> LookupPage.Invoked)
        (st : LookupPage.State) :
  let out := LookupPage.onSubmit invoke st in
  (forall invoke',
     invoke' (App.normalize (LookupPage.handle st))
     = invoke (App.normalize (LookupPage.handle st)) ->
     LookupPage.onSubmit invoke' st = out)
  /\ LookupPage.handle (LookupPage.state out) = LookupPage.handle st
  /\ (LookupPage.result (LookupPage.state out) = LookupPage.result st
      \/ exists data metrics,
           invoke (App.normalize (LookupPage.handle st))
           = LookupPage.Resolves false (Some data)
           /\ LookupPage.or_text (LookupPage.error data) [] = []
           /\ LookupPage.toasts out = [Page.calculated]
           /\ App.generateMetrics (LookupPage.handle st) = Ok metrics
           /\ LookupPage.result (LookupPage.state out)
              = Some {| LookupPage.mainCharacter := App.mainCharacter metrics;
                        LookupPage.npcEnergy := App.npcEnergy metrics;
                        LookupPage.plotArmor := App.plotArmor metrics;
                        LookupPage.caption := App.caption metrics;
                        LookupPage.fid := LookupPage.data_fid data;
                        LookupPage.avatarUrl := LookupPage.data_pfp_url data;
                        LookupPage.displayName :=
                          LookupPage.data_display_name data;
                        LookupPage.username :=
                          LookupPage.data_username data |}
           /\ LookupPage.isSubmitting (LookupPage.state out) = false)
  /\ (forall data c m,
        invoke (App.normalize (LookupPage.handle st))
        = LookupPage.Resolves false (Some data) ->
        LookupPage.error data = Some (c :: m) ->
        LookupPage.result (LookupPage.state out) = LookupPage.result st
        /\ (LookupPage.toasts out = [LookupPage.handle_required]
            \/ LookupPage.toasts out = [Page.too_long]
            \/ LookupPage.toasts out = [LookupPage.user_not_found (c :: m)])).
Proof.
  cbv zeta.
  assert (trim (LookupPage.effectiveHandle st) = trim (LookupPage.handle st))
    as V by (unfold LookupPage.effectiveHandle; apply trim_idem).
  assert (App.generateMetrics (trim (LookupPage.handle st))
          = App.generateMetrics (LookupPage.handle st)) as G
      by apply app_generateMetrics_trim.
  unfold LookupPage.onSubmit. cbv zeta. rewrite V.
  fold (App.normalize (LookupPage.handle st)).
  destruct (trim (LookupPage.handle st)) as [| c r] eqn:T.
  { repeat split; auto. }
  destruct (Z.of_nat (length (c :: r)) >? 32).
  { repeat split; auto. }
  rewrite G.
  split; [intros invoke' ->; reflexivity |].
  split; [destruct (invoke (App.normalize (LookupPage.handle st)))
            as [| [|] [data |]]; try reflexivity;
          destruct (LookupPage.error data) as [[| e m] |]; try reflexivity;
          destruct (App.generateMetrics (LookupPage.handle st));
          reflexivity |].
  split.
  - destruct (invoke (App.normalize (LookupPage.handle st)))
      as [| [|] [data |]]; try (left; reflexivity).
    destruct (LookupPage.error data) as [[| e m] |] eqn:E;
      try (left; reflexivity);
      (destruct (App.generateMetrics (LookupPage.handle st)) as [metrics | x];
       [| left; reflexivity];
       right; exists data, metrics; rewrite E; repeat split; reflexivity).
  - intros data e m I E. rewrite I, E. split; [reflexivity |].
    right. right. reflexivity.
Qed.

Lemma lookup_submit_witness :
  LookupPage.onSubmit (fun _ => LookupPage.Rejects)
    {| LookupPage.handle := lit " @bob "; LookupPage.result := None;
       LookupPage.isSubmitting := false |}
  = LookupPage.onSubmit
      (fun name => if str_eqb name (lit "bob") then LookupPage.Rejects
                   else LookupPage.Resolves false None)
      {| LookupPage.handle := lit " @bob "; LookupPage.result := None;
         LookupPage.isSubmitting := false |}.
Proof.
  apply (proj1 (lookup_submit
           (fun name => if str_eqb name (lit "bob") then LookupPage.Rejects
                        else LookupPage.Resolves false None)
           {| LookupPage.handle := lit " @bob "; LookupPage.result := None;
              LookupPage.isSubmitting := false |})).
  reflexivity.
Defined.

Section LookupShare.

Lemma num_char_unit (c : Z) : is_num_char c = true -> 0 <= c < 65536.
Proof. unfold is_num_char. intros H. zbool. Qed.

Lemma num_chars_code_units (s : jsstring) :
  forallb is_num_char s = true -> code_units s = true.
Proof.
  induction s as [| c r IH]; [reflexivity |].
  cbn [forallb]. intros H. apply Bool.andb_true_iff in H as [C R].
  apply code_units_cons. split; [apply num_char_unit, C | apply IH, R].
Qed.

Lemma code_units_trim (s : jsstring) :
  code_units s = true -> code_units (trim s) = true.
Proof. intros U. apply code_units_trimEnd, code_units_trimStart, U. Qed.

Lemma code_units_shareText (appUrl : jsstring) (st : LookupPage.State)
      (r : LookupPage.Scan) :
  code_units (LookupPage.handle st) = true ->
  code_units appUrl = true ->
  code_units (LookupPage.or_text (LookupPage.username r) []) = true ->
  code_units match LookupPage.caption r with Some c => c | None => [] end
  = true ->
  code_units (LookupPage.shareText appUrl st r) = true.
Proof.
  intros H A N C. unfold LookupPage.shareText. cbv zeta. cbn [Page.join].
  assert (code_units
            (LookupPage.or_text (LookupPage.username r)
               (replace_leading_at (LookupPage.effectiveHandle st))) = true)
    as N'.
  { destruct (LookupPage.username r) as [[| c u] |]; cbn [LookupPage.or_text] in *;
      try exact N;
      apply code_units_replace, code_units_trim, H. }
  assert (code_units (LookupPage.fid_text (LookupPage.fid r)) = true) as F.
  { destruct (LookupPage.fid r); [| reflexivity].
    apply num_chars_code_units, num_to_string_chars. }
  assert (code_units (Page.armor_text (LookupPage.plotArmor r)) = true) as P
      by (destruct (LookupPage.plotArmor r); reflexivity).
  repeat (apply code_units_app; split);
    try assumption; try reflexivity;
    apply num_chars_code_units, num_to_string_chars.
Qed.

End LookupShare.

(** Sharing from the page with the lookup, for a handle, a window address
    and profile texts of 16-bit code units.  When the share text is well
    formed, the address opened is the compose address followed by the share
    text percent-encoded: behind the fixed prefix stand unreserved characters
    and percent signs only, so that no line feed, space or ampersand of the
    text reaches the address as it is.  When the share text holds a lone
    surrogate, and only then, no tab is opened: the URIError escapes. *)
Theorem lookup_share_url (appUrl : jsstring) (st : LookupPage.State)
        (r : LookupPage.Scan) :
  LookupPage.result st = Some r ->
  LookupPage.effectiveHandle st <> [] ->
  code_units (LookupPage.handle st) = true ->
  code_units appUrl = true ->
  code_units (LookupPage.or_text (LookupPage.username r) []) = true ->
  code_units match LookupPage.caption r with Some c => c | None => [] end
  = true ->
  match encodeURIComponent (LookupPage.shareText appUrl st r) with
  | Ok text =>
    well_formed (LookupPage.shareText appUrl st r) = true
    /\ forallb uri_safe text = true
    /\ LookupPage.handleShare appUrl st
       = Ok (Some (lit "https://warpcast.com/~/compose?text=" ++ text),
             LookupPage.opening_warpcast)
  | Throw _ =>
    well_formed (LookupPage.shareText appUrl st r) = false
    /\ LookupPage.handleShare appUrl st = Throw (lit "URI malformed")
  end.
Proof.
  intros R E H A N C. unfold LookupPage.handleShare. rewrite R.
  destruct (LookupPage.effectiveHandle st) as [| c e] eqn:V; [contradiction |].
  pose proof (encodeURIComponent_spec (LookupPage.shareText appUrl st r)) as S.
  pose proof (encodeURIComponent_safe _
                (code_units_shareText appUrl st r H A N C)) as Q.
  destruct (encodeURIComponent (LookupPage.shareText appUrl st r))
    as [text | m]; cbn [bind].
  - split; [exact S |]. split; [apply Q; reflexivity | reflexivity].
  - destruct S as [S ->]. split; [exact S | reflexivity].
Qed.

Lemma lookup_share_url_witness :
  LookupPage.handleShare (lit "https://example.org/")
    {| LookupPage.handle := lit "@bob";
       LookupPage.result :=
         Some {| LookupPage.mainCharacter := 51;
                 LookupPage.npcEnergy := 48;
                 LookupPage.plotArmor := App.Medium;
                 LookupPage.caption := Some (lit "A&B");
                 LookupPage.fid := Some 3;
                 LookupPage.avatarUrl := None;
                 LookupPage.displayName := None;
                 LookupPage.username := Some (lit "bob") |};
       LookupPage.isSubmitting := false |}
  = Ok (Some (lit "https://warpcast.com/~/compose?text="
              ++ lit "Main%20Character%20Energy%3A%2051%25%0ANPC%20Energy%3A%2048%25%0APlot%20Armor%3A%20Medium%0A%0AA%26B%0A%0A%40bob%20%E2%80%A2%20FID%3A%203%0A%0AScan%20your%20vibes%3A%20https%3A%2F%2Fexample.org%2F"),
        LookupPage.opening_warpcast).
Proof.
  pose proof (lookup_share_url (lit "https://example.org/")
    {| LookupPage.handle := lit "@bob";
       LookupPage.result :=
         Some {| LookupPage.mainCharacter := 51;
                 LookupPage.npcEnergy := 48;
                 LookupPage.plotArmor := App.Medium;
                 LookupPage.caption := Some (lit "A&B");
                 LookupPage.fid := Some 3;
                 LookupPage.avatarUrl := None;
                 LookupPage.displayName := None;
                 LookupPage.username := Some (lit "bob") |};
       LookupPage.isSubmitting := false |}
    _ eq_refl ltac:(discriminate) eq_refl eq_refl eq_refl eq_refl) as H.
  exact (proj2 (proj2 H)).
Defined.

(** ** The mock connection *)

(** After the mock connection, a scan with a blank handle field is a scan of
    [farcaster]: the field is filled with that name behind a commercial at
    when it is empty, and a field of white space falls back on the name. *)
Theorem page_connect_scan (st : Page.State) :
  whitespace_only (Page.handle st) = true ->
  let connected := Page.state (Page.handleConnectClick st) in
  Page.connected connected = true
  /\ Page.toasts (Page.handleConnectClick st) = [Page.mock_connect]
  /\ App.generateMetrics (Page.effectiveHandle connected)
     = App.generateMetrics (lit "farcaster")
  /\ exists metrics,
       App.generateMetrics (lit "farcaster") = Ok metrics
       /\ Page.onSubmit connected
          = {| Page.state :=
                 {| Page.handle := Page.handle connected;
                    Page.connected := true;
                    Page.result := Some metrics;
                    Page.isSubmitting := false |};
               Page.toasts := [Page.calculated];
               Page.thrown := None |}.
Proof.
  intros W. apply whitespace_only_all_ws in W. cbv zeta.
  split; [reflexivity |]. split; [reflexivity |].
  unfold Page.handleConnectClick. cbn [Page.state].
  destruct (Page.handle st) as [| c r] eqn:H.
  - split; [reflexivity |]. eexists. split; reflexivity.
  - assert (Page.effectiveHandle
              {| Page.handle := c :: r; Page.connected := true;
                 Page.result := Page.result st;
                 Page.isSubmitting := Page.isSubmitting st |}
            = lit "farcaster") as E.
    { unfold Page.effectiveHandle. cbn [Page.handle Page.connected].
      rewrite (trim_ws _ W). reflexivity. }
    split; [rewrite E; reflexivity |].
    eexists. split; [reflexivity |].
    unfold Page.onSubmit. cbv zeta. rewrite E. reflexivity.
Qed.

Lemma page_connect_scan_witness :
  App.generateMetrics
    (Page.effectiveHandle (Page.state (Page.handleConnectClick Page.initial)))
  = App.generateMetrics (lit "farcaster").
Proof.
  exact (proj1 (proj2 (proj2 (page_connect_scan Page.initial eq_refl)))).
Defined.
